(** * RevenueEdge: identity resolution, cleaning, aggregation and join

    A shallow embedding of the data pipeline of the RevenueEdge scripts

      - [scripts/02_clean_goodreads.py]    (module [Goodreads])
      - [scripts/03_clean_bookcrossing.py] (module [BookCrossing])
      - [scripts/04_create_database.py]    (module [Database])
      - [scripts/05_analyze_data.py]       (module [Analysis], the hidden
        gems report)
      - [run_all.py]                       (module [RunAll])

    Conventions of the embedding.

    - A Python [str] is a list of characters ([str := list ascii]).  The
      character operations ([str.strip], [str.upper], the regular expression
      classes) are the ones Python applies to ASCII text; characters with a
      code above 127 are kept as they are and are neither letters nor spaces.
    - A pandas cell read from a CSV file is missing ([CNaN]), a number
      ([CNum]) or text ([CStr]); a missing value of a column is [None].
    - SQL columns are nullable: a column of type [T] is an [option T], and
      comparisons follow SQL's three-valued logic ([option bool]).
    - REAL columns that are only compared and subtracted are rationals
      ([Q]); the engagement score, which needs a logarithm, is a real
      number ([R]).  Rounding of binary floating point is not modelled. *)

From Stdlib Require Import List Ascii String Bool Arith ZArith QArith Lia.
From Stdlib Require Import Permutation Sorted.
From Stdlib Require Import Reals Lra Qreals.
Import ListNotations.

Set Implicit Arguments.
Open Scope nat_scope.

(** ** Python strings *)

Module PyStr.

Definition str := list ascii.

(** A string literal of the source. *)
Definition lit (s : string) : str := list_ascii_of_string s.

Definition code (c : ascii) : N := N_of_ascii c.

Definition in_range (lo hi : N) (c : ascii) : bool :=
  (N.leb lo (code c) && N.leb (code c) hi)%bool.

(** [str.isspace] on ASCII: tab, line feed, vertical tab, form feed,
    carriage return, the four separators 28..31 and the blank. *)
Definition is_space (c : ascii) : bool :=
  (in_range 9 13 c || in_range 28 32 c)%bool.

Definition is_upper (c : ascii) : bool := in_range 65 90 c.
Definition is_lower (c : ascii) : bool := in_range 97 122 c.
Definition is_digit (c : ascii) : bool := in_range 48 57 c.

(** The character class [[A-Z0-9]]. *)
Definition is_AZ09 (c : ascii) : bool := (is_upper c || is_digit c)%bool.

(** The character class [[-\s]]. *)
Definition is_dash_or_space (c : ascii) : bool :=
  (N.eqb (code c) 45 || is_space c)%bool.

Definition upper_char (c : ascii) : ascii :=
  if is_lower c then ascii_of_N (code c - 32) else c.

(** [s.upper()] *)
Definition upper (s : str) : str := map upper_char s.

Fixpoint lstrip (s : str) : str :=
  match s with
  | [] => []
  | c :: t => if is_space c then lstrip t else s
  end.

Definition rstrip (s : str) : str := rev (lstrip (rev s)).

(** [s.strip()] *)
Definition strip (s : str) : str := rstrip (lstrip s).

(** [re.sub(r'[-\s]', '', s)] *)
Definition remove_dash_space (s : str) : str :=
  filter (fun c => negb (is_dash_or_space c)) s.

(** [re.sub(r'[^A-Z0-9]', '', s)] *)
Definition keep_AZ09 (s : str) : str := filter is_AZ09 s.

Definition comma : ascii := ","%char.
Definition underscore : ascii := "_"%char.

(** [s.split(',')[0]]: the text before the first comma. *)
Fixpoint split_first (s : str) : str :=
  match s with
  | [] => []
  | c :: t => if Ascii.eqb c comma then [] else c :: split_first t
  end.

(** [s.split(',')[-1]]: the text after the last comma. *)
Definition split_last (s : str) : str := rev (split_first (rev s)).

(** [s[:n]] *)
Definition slice_to (n : nat) (s : str) : str := firstn n s.

Definition str_eqb (a b : str) : bool :=
  if list_eq_dec ascii_dec a b then true else false.

(** [needle in hay] for strings. *)
Fixpoint starts_with (needle hay : str) : bool :=
  match needle, hay with
  | [], _ => true
  | _ :: _, [] => false
  | a :: n', b :: h' => (Ascii.eqb a b && starts_with n' h')%bool
  end.

Fixpoint contains (needle hay : str) : bool :=
  match hay with
  | [] => starts_with needle []
  | _ :: t => (starts_with needle hay || contains needle t)%bool
  end.

(** Truth value of a string: non-empty. *)
Definition truthy (s : str) : bool :=
  match s with [] => false | _ :: _ => true end.

End PyStr.
Import PyStr.

(** ** pandas cells *)

Inductive Cell : Type :=
| CNaN
| CNum (q : Q)
| CStr (s : str).

(** [pd.isna] / [pd.notna] on a text column. *)
Definition notna {A} (x : option A) : bool :=
  match x with Some _ => true | None => false end.

(** The numeric parser behind [pd.to_numeric]: which texts are numbers, and
    their values, is pandas' business; it is an interface of the model.
    [parse_number] gives the finite numbers: a text that is not read, or is
    read as NaN or as an infinity, gives [None], and [reads_as_infinity]
    tells the infinities apart (an infinite value is not a number of a
    data frame that can be cast to an integer).  [cast_out_of_range] is
    what the cast of a float to a 64-bit integer gives for a value whose
    integer part does not fit, which is left to the platform. *)
Class NumericParser := {
  parse_number : str -> option Q;
  reads_as_infinity : str -> bool;
  cast_out_of_range : Q -> Z
}.

(** [pd.to_numeric(x, errors='coerce')] on one cell: numbers stay, text is
    parsed, and what cannot be parsed becomes NaN ([None]). *)
Definition to_numeric `{NumericParser} (x : Cell) : option Q :=
  match x with
  | CNaN => None
  | CNum q => Some q
  | CStr s => parse_number s
  end.

(** ** Data frame helpers *)

Fixpoint filter_map {A B} (f : A -> option B) (l : list A) : list B :=
  match l with
  | [] => []
  | x :: t => match f x with
              | Some y => y :: filter_map f t
              | None => filter_map f t
              end
  end.

Section Sorting.
Variable A : Type.
Variable leb : A -> A -> bool.

Fixpoint insert_sorted (x : A) (l : list A) : list A :=
  match l with
  | [] => [x]
  | y :: t => if leb x y then x :: l else y :: insert_sorted x t
  end.

Definition isort (l : list A) : list A :=
  fold_right insert_sorted [] l.
End Sorting.

Section Distinct.
Variable A : Type.
Variable eqb : A -> A -> bool.

(** The distinct values of a list, each at its first occurrence. *)
Fixpoint distinct (l : list A) : list A :=
  match l with
  | [] => []
  | x :: t => x :: filter (fun y => negb (eqb x y)) (distinct t)
  end.
End Distinct.

(** ** Tables exchanged between the scripts *)

(** A row of [data/processed/goodreads_cleaned.csv], which is also a row of
    the [books] table.  Every column is nullable in the database; the
    boolean [is_uk_publisher] is stored as 1 or 0.  The columns
    [publication_date] and [language] are copied through by the cleaner
    and read by no query, and are left out. *)
Record Book := {
  book_key : option str;
  isbn : option str;
  title : option str;
  authors : option str;
  goodreads_rating : option Q;
  goodreads_review_count : option Z;
  page_count : option Q;
  publisher : option str;
  is_uk_publisher : bool
}.

(** A row of [data/processed/bc_ratings_aggregated.csv], which is also a row
    of the [community_ratings] table (without its median column, which the
    join does not select). *)
Record CommunityRating := {
  c_isbn : option str;
  bc_rating_avg : option Q;
  bc_rating_count : option Z;
  bc_rating_stddev : option Q;
  bc_rating_normalized : option Q
}.

(** ** scripts/02_clean_goodreads.py *)

Module Goodreads.

(** A row of [data/raw/books.csv], with the columns the cleaner works
    on; text columns hold their text ([str(...)]) or are missing. *)
Module Raw.
Record Row := {
  isbn : option str;
  isbn13 : option str;
  title : option str;
  authors : option str;
  average_rating : Cell;
  ratings_count : Cell;
  num_pages : Cell;
  publisher : option str
}.
End Raw.

Definition clean_isbn (isbn : option str) : option str :=
  match isbn with
  | None => None
  | Some s =>
      let isbn_str := upper (strip s) in
      let isbn_clean := remove_dash_space isbn_str in
      let isbn_clean := keep_AZ09 isbn_clean in
      if (Nat.eqb (List.length isbn_clean) 10
          || Nat.eqb (List.length isbn_clean) 13)%bool
      then Some isbn_clean
      else None
  end.

(** [isbn13_clean.fillna(isbn_clean)] *)
Definition fillna {A} (x y : option A) : option A :=
  match x with Some _ => x | None => y end.

Definition ISBN (row : Raw.Row) : option str :=
  fillna (clean_isbn (Raw.isbn13 row)) (clean_isbn (Raw.isbn row)).

(** [str(row.get(f, '')).strip().upper() if pd.notna(row.get(f)) else ''] *)
Definition field_text (f : option str) : str :=
  match f with
  | Some s => upper (strip s)
  | None => []
  end.

Definition COMP_ : str := lit "COMP_".

Definition create_composite_key (row : Raw.Row) : option str :=
  match ISBN row with
  | Some i => Some i
  | None =>
      let title := field_text (Raw.title row) in
      let author := field_text (Raw.authors row) in
      if (truthy title && truthy author)%bool then
        let title_clean := keep_AZ09 title in
        let author_clean := keep_AZ09 (split_first author) in
        Some (COMP_ ++ slice_to 30 title_clean ++ [underscore]
                    ++ slice_to 20 author_clean)
      else None
  end.

(** [goodreads[goodreads['book_key'].notna()]] *)
Definition with_key (goodreads : list Raw.Row) : list Raw.Row :=
  filter (fun row => notna (create_composite_key row)) goodreads.

(** Comparisons of a float column with a constant: false on NaN. *)
Definition ge_const (x : option Q) (k : Q) : bool :=
  match x with Some q => Qle_bool k q | None => false end.
Definition le_const (x : option Q) (k : Q) : bool :=
  match x with Some q => Qle_bool q k | None => false end.
Definition lt_const (x : option Q) (k : Q) : bool :=
  match x with Some q => negb (Qle_bool k q) | None => false end.
Definition gt_const (x : option Q) (k : Q) : bool :=
  match x with Some q => negb (Qle_bool q k) | None => false end.

Section Cleaning.
Context `{NumericParser}.

(** The [average_rating] column after [pd.to_numeric(..., errors='coerce')]. *)
Definition rating_of (row : Raw.Row) : option Q :=
  to_numeric (Raw.average_rating row).

(** The mask [(average_rating >= 0) & (average_rating <= 5)]. *)
Definition rating_mask (row : Raw.Row) : bool :=
  (ge_const (rating_of row) 0 && le_const (rating_of row) 5)%bool.

(** [.astype(int)] on a finite float: the fraction is cut off, and the
    result is a 64-bit integer; a value whose integer part is not in
    [-2^63, 2^63) has no integer of that width. *)
Definition astype_int (q : Q) : Z :=
  let n := Z.quot (Qnum q) (Zpos (Qden q)) in
  if (Z.leb (- 2 ^ 63) n && Z.ltb n (2 ^ 63))%bool then n
  else cast_out_of_range q.

(** [pd.to_numeric(ratings_count, errors='coerce').fillna(0).astype(int)] *)
Definition review_count_of (row : Raw.Row) : Z :=
  match to_numeric (Raw.ratings_count row) with
  | Some q => astype_int q
  | None => 0%Z
  end.

(** [num_pages]: parsed, and set to NaN below 10 or above 2000. *)
Definition page_count_of (row : Raw.Row) : option Q :=
  let p := to_numeric (Raw.num_pages row) in
  if (lt_const p 10 || gt_const p 2000)%bool then None else p.

(** The synonym table, in the order of the source. *)
Definition uk_publishers : list (str * list str) :=
  [ (lit "PENGUIN", [lit "PENGUIN"; lit "PENGUIN BOOKS"; lit "PENGUIN UK";
                     lit "PENGUIN RANDOM HOUSE"]);
    (lit "BLOOMSBURY", [lit "BLOOMSBURY"; lit "BLOOMSBURY PUBLISHING"]);
    (lit "HARPERCOLLINS", [lit "HARPERCOLLINS"; lit "HARPER COLLINS";
                           lit "HARPER"]);
    (lit "MACMILLAN", [lit "MACMILLAN"; lit "PAN MACMILLAN";
                       lit "MACMILLAN UK"]);
    (lit "ORION", [lit "ORION"; lit "ORION PUBLISHING"]);
    (lit "FABER", [lit "FABER"; lit "FABER & FABER"; lit "FABER AND FABER"]);
    (lit "RANDOM HOUSE", [lit "RANDOM HOUSE"; lit "RANDOMHOUSE"]) ].

(** The canonical names: the keys of the synonym table. *)
Definition canonical_names : list str := map fst uk_publishers.

Fixpoint first_match (pub : str) (table : list (str * list str)) : option str :=
  match table with
  | [] => None
  | (standard_name, variations) :: rest =>
      if existsb (fun var => contains var pub) variations
      then Some standard_name
      else first_match pub rest
  end.

Definition standardize_publisher (publisher : option str) : str :=
  match publisher with
  | None => lit "Unknown"
  | Some p =>
      let pub := upper (strip p) in
      match first_match pub uk_publishers with
      | Some standard_name => standard_name
      | None => strip p
      end
  end.

Definition uk_publisher_keywords : list str :=
  [ lit "PENGUIN"; lit "BLOOMSBURY"; lit "HARPERCOLLINS"; lit "MACMILLAN";
    lit "ORION"; lit "FABER"; lit "CANONGATE"; lit "HACHETTE UK" ].

(** [any(keyword in str(x).upper() for keyword in uk_publisher_keywords)] *)
Definition flag_uk (publisher_clean : str) : bool :=
  existsb (fun keyword => contains keyword (upper publisher_clean))
          uk_publisher_keywords.

(** The columns of the output for one surviving row. *)
Definition finish (row : Raw.Row) : Book :=
  let publisher_clean := standardize_publisher (Raw.publisher row) in
  {| book_key := create_composite_key row;
     isbn := ISBN row;
     title := Raw.title row;
     authors := Raw.authors row;
     goodreads_rating := rating_of row;
     goodreads_review_count := Some (review_count_of row);
     page_count := page_count_of row;
     publisher := Some publisher_clean;
     is_uk_publisher := flag_uk publisher_clean |}.

Definition same_key (a b : option str) : bool :=
  match a, b with
  | Some x, Some y => str_eqb x y
  | None, None => true
  | _, _ => false
  end.

(** [drop_duplicates(subset=['book_key'], keep='first')] *)
Fixpoint drop_duplicates (seen : list (option str)) (rows : list Book)
  : list Book :=
  match rows with
  | [] => []
  | b :: rest =>
      if existsb (same_key (book_key b)) seen
      then drop_duplicates seen rest
      else b :: drop_duplicates (book_key b :: seen) rest
  end.

(** The rows left after the key filter and the rating mask. *)
Definition goodreads_clean (goodreads : list Raw.Row) : list Raw.Row :=
  filter rating_mask (with_key goodreads).

(** The table written to [data/processed/goodreads_cleaned.csv]. *)
Definition goodreads_final (goodreads : list Raw.Row) : list Book :=
  drop_duplicates [] (map finish (goodreads_clean goodreads)).

(** A review count that [pd.to_numeric] reads as an infinity: [fillna(0)]
    leaves it, and [.astype(int)] raises on a column that has one. *)
Definition count_is_infinite (row : Raw.Row) : bool :=
  match Raw.ratings_count row with
  | CStr s => reads_as_infinity s
  | _ => false
  end.

(** The script as a whole: the cast of the review counts of the rows left
    by the rating mask raises when one of them is infinite, and the script
    then ends without writing the table. *)
Definition script_02 (goodreads : list Raw.Row) : option (list Book) :=
  if existsb count_is_infinite (goodreads_clean goodreads) then None
  else Some (goodreads_final goodreads).

End Cleaning.

End Goodreads.

(** ** scripts/03_clean_bookcrossing.py *)

Module BookCrossing.

(** A row of [BX-Book-Ratings.csv]. *)
Module Ratings.
Record Row := { User_ID : Z; ISBN : option str; Book_Rating : Z }.
End Ratings.

(** A row of [BX-Users.csv]. *)
Module Users.
Record Row := { User_ID : Z; Location : option str; Age : Cell }.
End Users.

Definition clean_isbn (isbn : option str) : option str :=
  match isbn with
  | None => None
  | Some s =>
      let isbn_str := upper (strip s) in
      let isbn_clean := remove_dash_space isbn_str in
      let isbn_clean := keep_AZ09 isbn_clean in
      if (Nat.eqb (List.length isbn_clean) 10
          || Nat.eqb (List.length isbn_clean) 13)%bool
      then Some isbn_clean
      else None
  end.

(** [bc_ratings[bc_ratings['Book-Rating'] > 0]] *)
Definition bc_ratings_explicit (bc_ratings : list Ratings.Row)
  : list Ratings.Row :=
  filter (fun r => Z.ltb 0 (Ratings.Book_Rating r)) bc_ratings.

(** A rating with its [isbn_clean] column, which is not null. *)
Record CleanRating := {
  cr_user : Z;
  cr_isbn_clean : str;
  cr_rating : Z
}.

Definition add_isbn_clean (r : Ratings.Row) : option CleanRating :=
  match clean_isbn (Ratings.ISBN r) with
  | Some i => Some {| cr_user := Ratings.User_ID r;
                      cr_isbn_clean := i;
                      cr_rating := Ratings.Book_Rating r |}
  | None => None
  end.

Definition bc_ratings_clean (bc_ratings : list Ratings.Row)
  : list CleanRating :=
  filter_map add_isbn_clean (bc_ratings_explicit bc_ratings).

(** *** Grouping *)

(** Order of strings by character code, as pandas sorts group keys. *)
Fixpoint str_leb (a b : str) : bool :=
  match a, b with
  | [], _ => true
  | _ :: _, [] => false
  | x :: a', y :: b' =>
      match N.compare (code x) (code y) with
      | Lt => true
      | Gt => false
      | Eq => str_leb a' b'
      end
  end.


Definition sum_ratings (l : list Z) : Z := fold_right Z.add 0%Z l.

(** [mean] of a non-empty group. *)
Definition mean (l : list Z) : Q :=
  (inject_Z (sum_ratings l) / inject_Z (Z.of_nat (List.length l)))%Q.

(** One row of [bc_aggregated]; the standard deviation and the median of
    the group are further columns of the file and are not modelled. *)
Record Aggregate := {
  a_isbn : str;
  a_bc_rating_avg : Q;
  a_bc_rating_count : nat;
  a_bc_rating_normalized : Q
}.

Definition aggregate_of (rows : list CleanRating) (k : str) : Aggregate :=
  let g := map cr_rating
               (filter (fun r => str_eqb (cr_isbn_clean r) k) rows) in
  {| a_isbn := k;
     a_bc_rating_avg := mean g;
     a_bc_rating_count := List.length g;
     a_bc_rating_normalized := (mean g / 2)%Q |}.

(** [groupby('isbn_clean').agg(...)], groups in key order. *)
Definition bc_aggregated (rows : list CleanRating) : list Aggregate :=
  map (aggregate_of rows)
      (isort str_leb (distinct str_eqb (map cr_isbn_clean rows))).

(** [bc_aggregated[bc_aggregated['bc_rating_count'] >= 10]] *)
Definition bc_aggregated_filtered (rows : list CleanRating)
  : list Aggregate :=
  filter (fun a => Nat.leb 10 (a_bc_rating_count a)) (bc_aggregated rows).

(** *** Users *)

Record CleanUser := {
  cu_user : Z;
  cu_age : option Q;
  cu_age_group : str;
  cu_country : str;
  cu_is_uk : bool
}.

Definition categorize_age (age : option Q) : str :=
  match age with
  | None => lit "Unknown"
  | Some a =>
      if negb (Qle_bool 26 a) then lit "18-25"
      else if negb (Qle_bool 36 a) then lit "26-35"
      else if negb (Qle_bool 51 a) then lit "36-50"
      else if negb (Qle_bool 66 a) then lit "51-65"
      else lit "66+"
  end.

Definition uk_countries : list str :=
  [ lit "UK"; lit "UNITED KINGDOM"; lit "ENGLAND"; lit "SCOTLAND";
    lit "WALES" ].

Section Users.
Context `{NumericParser}.

(** [Age]: parsed, and set to NaN below 10 or above 100. *)
Definition clean_age (age : Cell) : option Q :=
  let a := to_numeric age in
  if (Goodreads.lt_const a 10 || Goodreads.gt_const a 100)%bool
  then None else a.

Definition clean_user (u : Users.Row) : CleanUser :=
  let country := match Users.Location u with
                 | Some x => upper (strip (split_last x))
                 | None => lit "Unknown"
                 end in
  {| cu_user := Users.User_ID u;
     cu_age := clean_age (Users.Age u);
     cu_age_group := categorize_age (clean_age (Users.Age u));
     cu_country := country;
     cu_is_uk := existsb (str_eqb country) uk_countries |}.

Definition bc_users_clean (bc_users : list Users.Row) : list CleanUser :=
  map clean_user bc_users.
End Users.

(** *** Ratings with demographics *)

(** A row of the left merge: the user's columns are null when no user
    has the rating's [User-ID]. *)
Record RatingWithUser := {
  m_user : Z;
  m_isbn_clean : str;
  m_rating : Z;
  m_age_group : option str;
  m_country : option str;
  m_is_uk : option bool
}.

Definition matching_users (users : list CleanUser) (r : CleanRating)
  : list CleanUser :=
  filter (fun u => Z.eqb (cu_user u) (cr_user r)) users.

Definition merge_row (r : CleanRating) (u : option CleanUser)
  : RatingWithUser :=
  {| m_user := cr_user r;
     m_isbn_clean := cr_isbn_clean r;
     m_rating := cr_rating r;
     m_age_group := option_map cu_age_group u;
     m_country := option_map cu_country u;
     m_is_uk := option_map cu_is_uk u |}.

(** [bc_ratings_clean.merge(users, on='User-ID', how='left')] *)
Definition merge_left (ratings : list CleanRating) (users : list CleanUser)
  : list RatingWithUser :=
  flat_map (fun r =>
              match matching_users users r with
              | [] => [merge_row r None]
              | us => map (fun u => merge_row r (Some u)) us
              end) ratings.

Definition GroupKey : Type := (str * option str)%type.

Definition key_of (m : RatingWithUser) : GroupKey :=
  (m_isbn_clean m, m_age_group m).

Definition opt_str_eqb (a b : option str) : bool :=
  match a, b with
  | Some x, Some y => str_eqb x y
  | None, None => true
  | _, _ => false
  end.

Definition key_eqb (a b : GroupKey) : bool :=
  (str_eqb (fst a) (fst b) && opt_str_eqb (snd a) (snd b))%bool.

Definition opt_str_leb (a b : option str) : bool :=
  match a, b with
  | None, _ => true
  | Some _, None => false
  | Some x, Some y => str_leb x y
  end.

Definition key_leb (a b : GroupKey) : bool :=
  if str_eqb (fst a) (fst b) then opt_str_leb (snd a) (snd b)
  else str_leb (fst a) (fst b).

(** [groupby] leaves out the rows with a null in a key column
    (its default, [dropna=True]). *)
Definition dropna_keys (rows : list RatingWithUser) : list RatingWithUser :=
  filter (fun m => notna (m_age_group m)) rows.

Record DemographicInsight := {
  d_isbn : str;
  d_age_group : option str;
  d_rating_avg : Q;
  d_rating_count : nat
}.

Definition insight_of (rows : list RatingWithUser) (k : GroupKey)
  : DemographicInsight :=
  let g := map m_rating (filter (fun m => key_eqb (key_of m) k) rows) in
  {| d_isbn := fst k;
     d_age_group := snd k;
     d_rating_avg := mean g;
     d_rating_count := List.length g |}.

(** [groupby(['isbn_clean', 'age_group']).agg({'Book-Rating': ['mean', 'count']})] *)
Definition groupby_isbn_age_group (rows : list RatingWithUser)
  : list DemographicInsight :=
  let kept := dropna_keys rows in
  map (insight_of kept) (isort key_leb (distinct key_eqb (map key_of kept))).

(** The table written to [bc_demographic_insights.csv]. *)
Definition demographic_insights (ratings : list CleanRating)
  (users : list CleanUser) : list DemographicInsight :=
  filter (fun d => Nat.leb 5 (d_rating_count d))
         (groupby_isbn_age_group (merge_left ratings users)).

End BookCrossing.

(** ** scripts/04_create_database.py *)

Module Database.

(** *** SQL expressions over nullable columns *)

Definition sql_and (a b : option bool) : option bool :=
  match a, b with
  | Some false, _ => Some false
  | _, Some false => Some false
  | Some true, Some true => Some true
  | _, _ => None
  end.

Definition sql_or (a b : option bool) : option bool :=
  match a, b with
  | Some true, _ => Some true
  | _, Some true => Some true
  | Some false, Some false => Some false
  | _, _ => None
  end.

Definition sql_ge_real (x : option Q) (k : Q) : option bool :=
  option_map (fun q => Qle_bool k q) x.
Definition sql_lt_real (x : option Q) (k : Q) : option bool :=
  option_map (fun q => negb (Qle_bool k q)) x.
Definition sql_ge_int (x : option Z) (k : Z) : option bool :=
  option_map (fun n => Z.leb k n) x.
Definition sql_lt_int (x : option Z) (k : Z) : option bool :=
  option_map (fun n => Z.ltb n k) x.

Definition sql_eq_text (a b : option str) : option bool :=
  match a, b with
  | Some x, Some y => Some (str_eqb x y)
  | _, _ => None
  end.

Definition sql_sub (a b : option Q) : option Q :=
  match a, b with
  | Some x, Some y => Some (x - y)%Q
  | _, _ => None
  end.

(** A condition of a [WHEN], a [WHERE] or an [ON] is taken only when it
    is true; false and NULL are not. *)
Definition holds (c : option bool) : bool :=
  match c with Some true => true | _ => false end.

(** SQLite's one-argument [LOG] is the logarithm to base 10 (its [LN] is
    the natural one), and it is NULL for an argument that is NULL or not
    positive.  The mathematical functions are taken to be built into the
    SQLite library in use. *)
Definition sqlite_log (x : option Z) : option R :=
  match x with
  | Some n => if Z.ltb 0 n then Some (ln (IZR n) / ln 10)%R else None
  | None => None
  end.

Definition sql_mul_real (a : option Q) (b : option R) : option R :=
  match a, b with
  | Some x, Some y => Some (Q2R x * y)%R
  | _, _ => None
  end.

(** *** The query *)

(** A column of the [community_ratings] side of the left join: NULL when
    no row of that table was joined. *)
Definition c_col {A} (f : CommunityRating -> option A)
  (c : option CommunityRating) : option A :=
  match c with Some r => f r | None => None end.

(** The [CASE] expression of [book_category]. *)
Definition book_category (bc_rating_normalized : option Q)
  (goodreads_review_count : option Z) : str :=
  if holds (sql_and (sql_ge_real bc_rating_normalized 4)
                    (sql_lt_int goodreads_review_count 500))
  then lit "Hidden Gem"
  else if holds (sql_and (sql_ge_real bc_rating_normalized 4)
                         (sql_ge_int goodreads_review_count 500))
  then lit "Popular Favorite"
  else if holds (sql_lt_real bc_rating_normalized 3)
  then lit "Underperformer"
  else lit "Average".

(** [b.goodreads_rating * LOG(b.goodreads_review_count + 1)] *)
Definition engagement_score (b : Book) : option R :=
  sql_mul_real (goodreads_rating b)
    (sqlite_log (option_map (fun n => (n + 1)%Z) (goodreads_review_count b))).

(** A row of the result, and of [data/processed/master_dataset.csv]. *)
Module Master.
Record Row := {
  book_key : option str;
  isbn : option str;
  title : option str;
  authors : option str;
  goodreads_rating : option Q;
  goodreads_review_count : option Z;
  page_count : option Q;
  publisher : option str;
  is_uk_publisher : bool;
  bc_rating : option Q;
  bc_rating_count : option Z;
  bc_rating_stddev : option Q;
  rating_gap : option Q;
  book_category : str;
  engagement_score : option R
}.
End Master.

(** The [SELECT] list. *)
Definition select (b : Book) (c : option CommunityRating) : Master.Row :=
  {| Master.book_key := book_key b;
     Master.isbn := isbn b;
     Master.title := title b;
     Master.authors := authors b;
     Master.goodreads_rating := goodreads_rating b;
     Master.goodreads_review_count := goodreads_review_count b;
     Master.page_count := page_count b;
     Master.publisher := publisher b;
     Master.is_uk_publisher := is_uk_publisher b;
     Master.bc_rating := c_col bc_rating_normalized c;
     Master.bc_rating_count := c_col bc_rating_count c;
     Master.bc_rating_stddev := c_col bc_rating_stddev c;
     Master.rating_gap :=
       sql_sub (c_col bc_rating_normalized c) (goodreads_rating b);
     Master.book_category :=
       book_category (c_col bc_rating_normalized c)
                     (goodreads_review_count b);
     Master.engagement_score := engagement_score b |}.

(** [ON b.isbn = c.isbn] *)
Definition on_isbn (b : Book) (c : CommunityRating) : bool :=
  holds (sql_eq_text (isbn b) (c_isbn c)).

(** [FROM books b LEFT JOIN community_ratings c ON b.isbn = c.isbn] *)
Definition left_join (books : list Book)
  (community_ratings : list CommunityRating)
  : list (Book * option CommunityRating) :=
  flat_map (fun b =>
              match filter (on_isbn b) community_ratings with
              | [] => [(b, None)]
              | cs => map (fun c => (b, Some c)) cs
              end) books.

(** [WHERE b.is_uk_publisher = 1 OR c.isbn IS NOT NULL] *)
Definition where_clause (bc : Book * option CommunityRating) : bool :=
  holds (sql_or (Some (is_uk_publisher (fst bc)))
                (Some (notna (c_col c_isbn (snd bc))))).

(** [ORDER BY engagement_score DESC]: larger scores first, NULL last. *)
Definition desc_before (x y : Master.Row) : bool :=
  match Master.engagement_score x, Master.engagement_score y with
  | _, None => true
  | None, Some _ => false
  | Some a, Some b => if Rle_dec b a then true else false
  end.

Definition sql_query (books : list Book)
  (community_ratings : list CommunityRating) : list Master.Row :=
  isort desc_before
    (map (fun bc => select (fst bc) (snd bc))
         (filter where_clause (left_join books community_ratings))).

(** *** The script *)

(** The files and the database the script reads and writes.  A file that
    does not exist is [None]; the tables of [revenueedge.db] stay from one
    run to the next. *)
Record World := {
  goodreads_cleaned_csv : option (list Book);
  bc_ratings_aggregated_csv : option (list CommunityRating);
  books_table : list Book;
  community_ratings_table : list CommunityRating;
  master_dataset_csv : option (list Master.Row);
  executive_summary_total_books : option nat
}.

(** A run of a script: whether it ended with exit status 0, and the world
    it leaves. *)
Definition Script : Type := World -> bool * World.

Definition script_04 : Script := fun w =>
  match goodreads_cleaned_csv w with
  | None => (false, w)                       (* exit(1) *)
  | Some goodreads =>
      let bc_ratings :=
        match bc_ratings_aggregated_csv w with
        | Some t => t
        | None => []                         (* warning, pd.DataFrame() *)
        end in
      let community :=
        if Nat.ltb 0 (List.length bc_ratings) then bc_ratings
        else community_ratings_table w in
      let master_dataset := sql_query goodreads community in
      (true,
       {| goodreads_cleaned_csv := goodreads_cleaned_csv w;
          bc_ratings_aggregated_csv := bc_ratings_aggregated_csv w;
          books_table := goodreads;
          community_ratings_table := community;
          master_dataset_csv := Some master_dataset;
          executive_summary_total_books :=
            executive_summary_total_books w |})
  end.

(** [scripts/05_analyze_data.py], as far as the pipeline's control goes:
    it needs [master_dataset.csv] and writes the executive summary, whose
    first metric is the number of rows of the master dataset. *)
Definition script_05 : Script := fun w =>
  match master_dataset_csv w with
  | None => (false, w)                       (* exit(1) *)
  | Some master =>
      (true,
       {| goodreads_cleaned_csv := goodreads_cleaned_csv w;
          bc_ratings_aggregated_csv := bc_ratings_aggregated_csv w;
          books_table := books_table w;
          community_ratings_table := community_ratings_table w;
          master_dataset_csv := master_dataset_csv w;
          executive_summary_total_books := Some (List.length master) |})
  end.

End Database.

(** ** run_all.py *)

Module RunAll.
Import Database.

(** The loop of [main]: run the scripts in order, count the successes and
    stop at the first script that fails.  [run_script] is true when the
    script ends with exit status 0, and false when it ends with another
    status or its file is not there. *)
Fixpoint main (scripts : list Script) (success_count : nat) (w : World)
  : nat * World :=
  match scripts with
  | [] => (success_count, w)
  | run_script :: rest =>
      let (ok, w') := run_script w in
      if ok then main rest (S success_count) w'
      else (success_count, w')
  end.

End RunAll.

(** ** scripts/05_analyze_data.py *)

Module Analysis.
Import Database.

(** The mask of the hidden gems report,
    [(bc_rating >= 4.0) & (goodreads_review_count < 500)
     & (bc_rating_count >= 20)]; a comparison with a missing value is
    false. *)
Definition hidden_gems_mask (row : Master.Row) : bool :=
  (Goodreads.ge_const (Master.bc_rating row) 4
   && match Master.goodreads_review_count row with
      | Some n => Z.ltb n 500
      | None => false
      end
   && match Master.bc_rating_count row with
      | Some n => Z.leb 20 n
      | None => false
      end)%bool.

(** [sort_values('bc_rating', ascending=False)] on rows whose rating is
    not null. *)
Definition bc_rating_desc (x y : Master.Row) : bool :=
  match Master.bc_rating x, Master.bc_rating y with
  | _, None => true
  | None, Some _ => false
  | Some a, Some b => Qle_bool b a
  end.

(** The table written to [output/reports/hidden_gems.csv]. *)
Definition hidden_gems (master : list Master.Row) : list Master.Row :=
  isort bc_rating_desc (filter hidden_gems_mask master).

End Analysis.

(** * Vocabulary of the properties *)

(** The strings made of capital letters and digits only. *)
Definition all_AZ09 (s : str) : Prop := Forall (fun c => is_AZ09 c = true) s.

(** A valid identifier: 10 or 13 characters, capital letters and digits. *)
Definition valid_identifier (r : str) : Prop :=
  (List.length r = 10 \/ List.length r = 13) /\ all_AZ09 r.

(** A field that is missing, or empty once the white space around it is
    trimmed. *)
Definition blank (f : option str) : Prop :=
  match f with
  | None => True
  | Some s => strip s = []
  end.

(** The elements of [l1] that are not in [l2]. *)
Definition not_in (l1 l2 : list str) : list str :=
  filter (fun x => negb (existsb (str_eqb x) l2)) l1.

(** The priority chain of the category, in two-valued terms: a comparison
    with a missing value does not hold. *)
Definition mean_at_least (mean : option Q) (k : Q) : bool :=
  match mean with Some m => Qle_bool k m | None => false end.
Definition mean_below (mean : option Q) (k : Q) : bool :=
  match mean with Some m => negb (Qle_bool k m) | None => false end.
Definition count_at_least (count : option Z) (k : Z) : bool :=
  match count with Some n => Z.leb k n | None => false end.
Definition count_below (count : option Z) (k : Z) : bool :=
  match count with Some n => Z.ltb n k | None => false end.

Definition category_chain (mean : option Q) (count : option Z) : str :=
  if (mean_at_least mean 4 && count_below count 500)%bool
  then lit "Hidden Gem"
  else if (mean_at_least mean 4 && count_at_least count 500)%bool
  then lit "Popular Favorite"
  else if mean_below mean 3
  then lit "Underperformer"
  else lit "Average".

(** A rating whose actor is in the users table. *)
Definition known_actor (users : list BookCrossing.CleanUser)
  (r : BookCrossing.CleanRating) : bool :=
  match BookCrossing.matching_users users r with
  | [] => false
  | _ :: _ => true
  end.

(** A string that does not begin with white space. *)
Definition head_not_space (s : str) : Prop :=
  match s with
  | [] => True
  | c :: _ => is_space c = false
  end.

(** The ratings of the cleaned ratings that have the identifier [k]. *)
Definition group_ratings (rows : list BookCrossing.CleanRating) (k : str)
  : list Z :=
  map BookCrossing.cr_rating
      (filter (fun r => str_eqb (BookCrossing.cr_isbn_clean r) k) rows).

(** The order of two engagement scores under [ORDER BY ... DESC]: a null
    score comes after every other, and a larger score before a smaller. *)
Definition score_order (x y : option R) : Prop :=
  match x, y with
  | _, None => True
  | None, Some _ => False
  | Some a, Some b => (b <= a)%R
  end.

(** A book that the retention filter keeps. *)
Definition retained (community : list CommunityRating) (b : Book) : bool :=
  (is_uk_publisher b || existsb (Database.on_isbn b) community)%bool.

(** The world with the aggregate file replaced (or removed). *)
Definition set_aggregates (file : option (list CommunityRating))
  (w : Database.World) : Database.World :=
  {| Database.goodreads_cleaned_csv := Database.goodreads_cleaned_csv w;
     Database.bc_ratings_aggregated_csv := file;
     Database.books_table := Database.books_table w;
     Database.community_ratings_table := Database.community_ratings_table w;
     Database.master_dataset_csv := Database.master_dataset_csv w;
     Database.executive_summary_total_books :=
       Database.executive_summary_total_books w |}.

(** * Sample data *)

(** A catalog row without a valid identifier. *)
Definition untitled_row (t a : string) : Goodreads.Raw.Row :=
  {| Goodreads.Raw.isbn := None;
     Goodreads.Raw.isbn13 := Some (lit "978-0");
     Goodreads.Raw.title := Some (lit t);
     Goodreads.Raw.authors := Some (lit a);
     Goodreads.Raw.average_rating := CNum 4;
     Goodreads.Raw.ratings_count := CNum 12;
     Goodreads.Raw.num_pages := CNum 300;
     Goodreads.Raw.publisher := None |}.

(** A catalog row with a valid identifier and the given rating cell. *)
Definition rated_row (rating : Cell) : Goodreads.Raw.Row :=
  {| Goodreads.Raw.isbn := Some (lit "0439708184");
     Goodreads.Raw.isbn13 := None;
     Goodreads.Raw.title := Some (lit "Harry Potter");
     Goodreads.Raw.authors := Some (lit "J.K. Rowling");
     Goodreads.Raw.average_rating := rating;
     Goodreads.Raw.ratings_count := CNum 4780000;
     Goodreads.Raw.num_pages := CNum 320;
     Goodreads.Raw.publisher := Some (lit "Scholastic") |}.

(** A parser of plain decimal numerals ([12], [4.47], [-3.5]), for the
    examples. *)
Module Decimal.

Definition digit_value (c : ascii) : Z := (Z.of_N (code c) - 48)%Z.

Fixpoint digits_value (acc : Z) (s : str) : option Z :=
  match s with
  | [] => Some acc
  | c :: t =>
      if is_digit c then digits_value (10 * acc + digit_value c)%Z t
      else None
  end.

Definition dot : ascii := "."%char.

(** The text before the first dot, and the text after it if there is one. *)
Fixpoint split_dot (s : str) : str * option str :=
  match s with
  | [] => ([], None)
  | c :: t =>
      if Ascii.eqb c dot then ([], Some t)
      else let (a, b) := split_dot t in (c :: a, b)
  end.

Definition parse_unsigned (s : str) : option Q :=
  let (whole, frac) := split_dot s in
  let frac := match frac with Some f => f | None => [] end in
  if (Nat.eqb (List.length whole) 0 && Nat.eqb (List.length frac) 0)%bool
  then None
  else
    match digits_value 0 whole, digits_value 0 frac with
    | Some a, Some b =>
        let scale := (10 ^ Z.of_nat (List.length frac))%Z in
        Some (Qmake (a * scale + b) (Z.to_pos scale))
    | _, _ => None
    end.

Definition parse (s : str) : option Q :=
  match strip s with
  | c :: t =>
      if Ascii.eqb c "-"%char then option_map Qopp (parse_unsigned t)
      else parse_unsigned (c :: t)
  | [] => None
  end.

(** [inf], [-inf], [+inf] and [infinity], in any case. *)
Definition infinite (s : str) : bool :=
  let t := upper (strip s) in
  existsb (str_eqb t)
          [lit "INF"; lit "-INF"; lit "+INF"; lit "INFINITY"; lit "-INFINITY";
           lit "+INFINITY"].

Definition parser : NumericParser :=
  {| parse_number := parse;
     reads_as_infinity := infinite;
     cast_out_of_range := fun _ => (- 2 ^ 63)%Z |}.

End Decimal.

(** A row of the [books] table with the given flag, rating and review
    count. *)
Definition sample_book (flag : bool) (rating : option Q) (count : option Z)
  : Book :=
  {| book_key := Some (lit "0439708184");
     isbn := Some (lit "0439708184");
     title := Some (lit "Harry Potter");
     authors := Some (lit "J.K. Rowling");
     goodreads_rating := rating;
     goodreads_review_count := count;
     page_count := Some 320%Q;
     publisher := Some (lit "Scholastic");
     is_uk_publisher := flag |}.

(** A row of the [community_ratings] table for the same identifier. *)
Definition sample_aggregate (normalized : Q) : CommunityRating :=
  {| c_isbn := Some (lit "0439708184");
     bc_rating_avg := Some (normalized * 2)%Q;
     bc_rating_count := Some 12%Z;
     bc_rating_stddev := None;
     bc_rating_normalized := Some normalized |}.

(** Ratings of one book by the given actors, and an actor of the cohort
    26-35. *)
Definition sample_ratings (actors : list Z) : list BookCrossing.CleanRating :=
  map (fun a => {| BookCrossing.cr_user := a;
                   BookCrossing.cr_isbn_clean := lit "0439708184";
                   BookCrossing.cr_rating := 9%Z |}) actors.

Definition sample_user (a : Z) : BookCrossing.CleanUser :=
  {| BookCrossing.cu_user := a;
     BookCrossing.cu_age := Some 30%Q;
     BookCrossing.cu_age_group := lit "26-35";
     BookCrossing.cu_country := lit "UK";
     BookCrossing.cu_is_uk := true |}.

(** A fresh run: the cleaned catalog with one flagged book is there, the
    rating aggregates are not, and the database is empty. *)
Definition world_without_aggregates : Database.World :=
  {| Database.goodreads_cleaned_csv :=
       Some [sample_book true (Some 4.47%Q) (Some 4780000%Z)];
     Database.bc_ratings_aggregated_csv := None;
     Database.books_table := [];
     Database.community_ratings_table := [];
     Database.master_dataset_csv := None;
     Database.executive_summary_total_books := None |}.

(** A run where the cleaned catalog is not there. *)
Definition world_without_catalog : Database.World :=
  {| Database.goodreads_cleaned_csv := None;
     Database.bc_ratings_aggregated_csv := Some [sample_aggregate 4.5%Q];
     Database.books_table := [];
     Database.community_ratings_table := [];
     Database.master_dataset_csv := None;
     Database.executive_summary_total_books := None |}.


Definition counted_row (count : Cell) : Goodreads.Raw.Row :=
  {| Goodreads.Raw.isbn := Some (lit "0141439583");
     Goodreads.Raw.isbn13 := None;
     Goodreads.Raw.title := Some (lit "Emma");
     Goodreads.Raw.authors := Some (lit "Jane Austen");
     Goodreads.Raw.average_rating := CNum 4;
     Goodreads.Raw.ratings_count := count;
     Goodreads.Raw.num_pages := CNum 300;
     Goodreads.Raw.publisher := Some (lit "Penguin Books") |}.

(** An aggregate row whose mean on the scale of 10 and rescaled mean are
    given apart. *)
Definition aggregate_row (avg normalized : Q) : CommunityRating :=
  {| c_isbn := Some (lit "0439708184");
     bc_rating_avg := Some avg;
     bc_rating_count := Some 12%Z;
     bc_rating_stddev := None;
     bc_rating_normalized := Some normalized |}.

(** * Properties *)

Unset Implicit Arguments.

(** ** Characters and strings *)

Section StringFacts.

Lemma AZ09_char (c : ascii) :
  is_AZ09 c = true ->
  upper_char c = c /\ is_space c = false /\ is_dash_or_space c = false
  /\ c <> underscore.
Proof.
  destruct c as [[] [] [] [] [] [] [] []]; vm_compute; intro Hc;
    try discriminate Hc; repeat split; try reflexivity; discriminate.
Qed.

Lemma keep_AZ09_all (s : str) : all_AZ09 (keep_AZ09 s).
Proof.
  unfold all_AZ09, keep_AZ09. apply Forall_forall. intros c Hc.
  apply filter_In in Hc. tauto.
Qed.

Lemma all_AZ09_firstn (n : nat) (s : str) : all_AZ09 s -> all_AZ09 (firstn n s).
Proof.
  unfold all_AZ09. rewrite !Forall_forall. intros Hs c Hc.
  apply Hs. rewrite <- (firstn_skipn n s). apply in_or_app. now left.
Qed.

Lemma all_AZ09_rev (s : str) : all_AZ09 s -> all_AZ09 (rev s).
Proof.
  unfold all_AZ09. rewrite !Forall_forall. intros Hs c Hc.
  apply Hs. now apply in_rev.
Qed.

Lemma lstrip_all_AZ09 (s : str) : all_AZ09 s -> lstrip s = s.
Proof.
  intros Hs. destruct s as [|c t]; [reflexivity|].
  inversion Hs as [|? ? Hc _]; subst. simpl.
  destruct (AZ09_char _ Hc) as (_ & Hsp & _). now rewrite Hsp.
Qed.

Lemma strip_all_AZ09 (s : str) : all_AZ09 s -> strip s = s.
Proof.
  intros Hs. unfold strip, rstrip. rewrite (lstrip_all_AZ09 _ Hs).
  rewrite (lstrip_all_AZ09 _ (all_AZ09_rev _ Hs)). apply rev_involutive.
Qed.

Lemma upper_all_AZ09 (s : str) : all_AZ09 s -> upper s = s.
Proof.
  unfold upper. induction 1 as [|c t Hc _ IH]; simpl; [reflexivity|].
  destruct (AZ09_char _ Hc) as (Hu & _). now rewrite Hu, IH.
Qed.

Lemma remove_dash_space_all_AZ09 (s : str) :
  all_AZ09 s -> remove_dash_space s = s.
Proof.
  unfold remove_dash_space. induction 1 as [|c t Hc _ IH]; simpl; [reflexivity|].
  destruct (AZ09_char _ Hc) as (_ & _ & Hd & _). now rewrite Hd, IH.
Qed.

Lemma keep_AZ09_all_AZ09 (s : str) : all_AZ09 s -> keep_AZ09 s = s.
Proof.
  unfold keep_AZ09. induction 1 as [|c t Hc _ IH]; simpl; [reflexivity|].
  now rewrite Hc, IH.
Qed.

Lemma no_underscore_all_AZ09 (s : str) : all_AZ09 s -> ~ In underscore s.
Proof.
  unfold all_AZ09. rewrite Forall_forall. intros Hs Hin.
  destruct (AZ09_char _ (Hs _ Hin)) as (_ & _ & _ & Hne). now apply Hne.
Qed.

Lemma upper_nil (s : str) : upper s = [] <-> s = [].
Proof.
  unfold upper. split; intros Hs.
  - now apply map_eq_nil in Hs.
  - now subst.
Qed.

Lemma truthy_false (s : str) : truthy s = false <-> s = [].
Proof. destruct s; simpl; split; congruence. Qed.

End StringFacts.

(** ** Identifiers *)

Lemma clean_isbn_valid (x : option str) (r : str) :
  Goodreads.clean_isbn x = Some r -> valid_identifier r.
Proof.
  unfold Goodreads.clean_isbn. destruct x as [s|]; [|discriminate].
  cbv zeta.
  destruct (Nat.eqb _ 10 || Nat.eqb _ 13)%bool eqn:Hlen; [|discriminate].
  intros Hr. injection Hr as <-. split.
  - apply orb_true_iff in Hlen. rewrite !Nat.eqb_eq in Hlen. exact Hlen.
  - apply keep_AZ09_all.
Qed.

Lemma clean_isbn_fixed (r : str) :
  valid_identifier r -> Goodreads.clean_isbn (Some r) = Some r.
Proof.
  intros [Hlen Hr]. unfold Goodreads.clean_isbn. cbv zeta.
  rewrite (strip_all_AZ09 _ Hr), (upper_all_AZ09 _ Hr),
    (remove_dash_space_all_AZ09 _ Hr), (keep_AZ09_all_AZ09 _ Hr).
  destruct Hlen as [-> | ->]; reflexivity.
Qed.

Lemma clean_isbn_same (x : option str) :
  BookCrossing.clean_isbn x = Goodreads.clean_isbn x.
Proof. reflexivity. Qed.

(** C9. Identifier normalization is idempotent, in both scripts: when
    [clean_isbn] maps a raw identifier to a result [r], then [r] has 10 or
    13 characters, all capital letters or digits, and [clean_isbn] maps
    [r] to [r]. *)
Theorem clean_isbn_idempotent (x : option str) (r : str) :
  Goodreads.clean_isbn x = Some r \/ BookCrossing.clean_isbn x = Some r ->
  valid_identifier r
  /\ Goodreads.clean_isbn (Some r) = Some r
  /\ BookCrossing.clean_isbn (Some r) = Some r.
Proof.
  intros Hx.
  assert (Hr : Goodreads.clean_isbn x = Some r).
  { destruct Hx as [Hx | Hx]; [exact Hx|].
    now rewrite <- (clean_isbn_same x). }
  pose proof (clean_isbn_valid _ _ Hr) as Hv.
  split; [exact Hv|].
  split; [|rewrite (clean_isbn_same (Some r))]; now apply clean_isbn_fixed.
Qed.

Lemma clean_isbn_idempotent_witness :
  Goodreads.clean_isbn (Some (lit " 0-439-70818-x ")) = Some (lit "043970818X")
  /\ valid_identifier (lit "043970818X")
  /\ Goodreads.clean_isbn (Some (lit "043970818X")) = Some (lit "043970818X")
  /\ BookCrossing.clean_isbn (Some (lit "043970818X"))
     = Some (lit "043970818X").
Proof.
  split; [reflexivity|].
  apply (clean_isbn_idempotent (Some (lit " 0-439-70818-x "))).
  left. reflexivity.
Defined.

(** ** Identity keys *)

Section IdentityKeys.
Import Goodreads.

Lemma field_text_blank (f : option str) :
  truthy (field_text f) = false <-> blank f.
Proof.
  rewrite truthy_false. destruct f as [s|]; simpl.
  - apply upper_nil.
  - tauto.
Qed.

Lemma composite_key_none (row : Raw.Row) :
  ISBN row = None ->
  (create_composite_key row = None
   <-> blank (Raw.title row) \/ blank (Raw.authors row)).
Proof.
  intros HI. unfold create_composite_key. rewrite HI. cbv zeta.
  rewrite <- !field_text_blank.
  destruct (truthy (field_text (Raw.title row)));
    destruct (truthy (field_text (Raw.authors row))); simpl;
    split; intros Hk; try reflexivity; try discriminate; try tauto.
  destruct Hk; discriminate.
Qed.

Lemma with_key_In (rows : list Raw.Row) (row : Raw.Row) :
  In row (with_key rows) <-> In row rows /\ create_composite_key row <> None.
Proof.
  unfold with_key. rewrite filter_In.
  destruct (create_composite_key row); simpl; split; intros [Hin Hk];
    split; congruence.
Qed.

Lemma fallback_key_shape (row : Raw.Row) (k : str) :
  ISBN row = None -> create_composite_key row = Some k ->
  exists t a, all_AZ09 t /\ all_AZ09 a /\ k = COMP_ ++ t ++ [underscore] ++ a.
Proof.
  intros HI. unfold create_composite_key. rewrite HI. cbv zeta.
  destruct (truthy _ && truthy _)%bool; [|discriminate].
  intros Hk.
  exists (slice_to 30 (keep_AZ09 (field_text (Raw.title row)))),
         (slice_to 20 (keep_AZ09 (split_first (field_text (Raw.authors row))))).
  split; [apply all_AZ09_firstn, keep_AZ09_all|].
  split; [apply all_AZ09_firstn, keep_AZ09_all|].
  symmetry. now injection Hk.
Qed.

End IdentityKeys.

(** C10. The two kinds of identity key never meet: a fallback key (the key
    of a record without a valid identifier) begins with [COMP_] and has
    an underscore in it, a normalized identifier is made of capital letters
    and digits only, and so no fallback key equals a normalized
    identifier. *)
Theorem fallback_key_not_identifier
  (row : Goodreads.Raw.Row) (k : str) (x : option str) (id : str) :
  Goodreads.ISBN row = None ->
  Goodreads.create_composite_key row = Some k ->
  Goodreads.clean_isbn x = Some id ->
  starts_with Goodreads.COMP_ k = true
  /\ In underscore k
  /\ all_AZ09 id
  /\ k <> id.
Proof.
  intros HI Hk Hid.
  destruct (fallback_key_shape row k HI Hk) as (t & a & _ & _ & ->).
  destruct (clean_isbn_valid x id Hid) as [_ Hall].
  assert (Hin : In underscore (Goodreads.COMP_ ++ t ++ [underscore] ++ a)).
  { apply in_or_app. right. apply in_or_app. right. now left. }
  repeat split; try assumption.
  intros Heq. rewrite <- Heq in Hall.
  exact (no_underscore_all_AZ09 _ Hall Hin).
Qed.

Lemma fallback_key_not_identifier_witness :
  let row := untitled_row "Emma" "Austen, Jane" in
  Goodreads.ISBN row = None
  /\ Goodreads.create_composite_key row = Some (lit "COMP_EMMA_AUSTEN")
  /\ Goodreads.clean_isbn (Some (lit "0-14-143958-3")) = Some (lit "0141439583")
  /\ starts_with Goodreads.COMP_ (lit "COMP_EMMA_AUSTEN") = true
  /\ In underscore (lit "COMP_EMMA_AUSTEN")
  /\ all_AZ09 (lit "0141439583")
  /\ lit "COMP_EMMA_AUSTEN" <> lit "0141439583".
Proof.
  intros row.
  split; [reflexivity|]. split; [reflexivity|]. split; [reflexivity|].
  apply (fallback_key_not_identifier row (lit "COMP_EMMA_AUSTEN")
           (Some (lit "0-14-143958-3")) (lit "0141439583"));
    reflexivity.
Defined.

(** C5, as the code has it. A record without a valid identifier whose
    title or author list is missing, or empty once the white space around
    it is trimmed, gets no identity key and is left out before any further
    processing, whatever the numeric parser. *)
Theorem blank_title_or_author_dropped
  (row : Goodreads.Raw.Row) :
  Goodreads.ISBN row = None ->
  blank (Goodreads.Raw.title row) \/ blank (Goodreads.Raw.authors row) ->
  Goodreads.create_composite_key row = None
  /\ forall (P : NumericParser) (rows : list Goodreads.Raw.Row),
       ~ In row (Goodreads.with_key rows)
       /\ ~ In row (Goodreads.goodreads_clean rows).
Proof.
  intros HI Hb.
  assert (Hk : Goodreads.create_composite_key row = None)
    by now apply composite_key_none.
  split; [exact Hk|]. intros P rows.
  assert (Hw : ~ In row (Goodreads.with_key rows)).
  { rewrite with_key_In. tauto. }
  split; [exact Hw|]. unfold Goodreads.goodreads_clean.
  rewrite filter_In. tauto.
Qed.

Lemma blank_title_or_author_dropped_witness :
  let row := untitled_row "   " "Austen, Jane" in
  Goodreads.ISBN row = None
  /\ (blank (Goodreads.Raw.title row) \/ blank (Goodreads.Raw.authors row))
  /\ Goodreads.create_composite_key row = None
  /\ forall (P : NumericParser) (rows : list Goodreads.Raw.Row),
       ~ In row (Goodreads.with_key rows)
       /\ ~ In row (Goodreads.goodreads_clean rows).
Proof.
  intros row.
  split; [reflexivity|]. split; [left; reflexivity|].
  apply (blank_title_or_author_dropped row); [reflexivity | left; reflexivity].
Defined.

(** C5, as the claim states it, fails: a title (or a first author segment)
    that is empty only after the characters other than capital letters and
    digits are removed still gives a key, with an empty part, and the
    record is kept. *)
Lemma punctuation_only_title_keeps_key :
  let row := untitled_row "?!" "Smith, John" in
  let row' := untitled_row "Emma" ", Jane Austen" in
  (Goodreads.ISBN row = None
   /\ keep_AZ09 (Goodreads.field_text (Goodreads.Raw.title row)) = []
   /\ Goodreads.create_composite_key row = Some (lit "COMP__SMITH")
   /\ In row (Goodreads.with_key [row]))
  /\ (Goodreads.ISBN row' = None
      /\ keep_AZ09
           (split_first (Goodreads.field_text (Goodreads.Raw.authors row')))
         = []
      /\ Goodreads.create_composite_key row' = Some (lit "COMP_EMMA_")
      /\ In row' (Goodreads.with_key [row'])).
Proof.
  intros row row'. repeat split; try reflexivity; now left.
Qed.

(** ** Catalog cleaning *)

Section CatalogFacts.
Import Goodreads.
Context {P : NumericParser}.

Lemma rating_mask_true (row : Raw.Row) :
  rating_mask row = true
  <-> exists q, to_numeric (Raw.average_rating row) = Some q
                /\ (0 <= q)%Q /\ (q <= 5)%Q.
Proof.
  unfold rating_mask, rating_of, ge_const, le_const.
  destruct (to_numeric (Raw.average_rating row)) as [q|].
  - rewrite andb_true_iff, !Qle_bool_iff. split.
    + intros [H0 H5]. now exists q.
    + intros (q' & Hq & H0 & H5). injection Hq as <-. now split.
  - simpl. split; [discriminate|]. intros (q & Hq & _). discriminate.
Qed.

Lemma drop_duplicates_In (seen : list (option str)) (l : list Book) (b : Book) :
  In b (drop_duplicates seen l) -> In b l.
Proof.
  revert seen. induction l as [|x l IH]; intros seen; simpl; [tauto|].
  destruct (existsb _ seen).
  - intros Hb. right. now apply (IH seen).
  - intros [Hb | Hb]; [now left|]. right. now apply (IH _ Hb).
Qed.

Lemma goodreads_final_In (rows : list Raw.Row) (b : Book) :
  In b (goodreads_final rows) ->
  exists row, In row (goodreads_clean rows) /\ b = finish row.
Proof.
  unfold goodreads_final. intros Hb. apply drop_duplicates_In in Hb.
  apply in_map_iff in Hb. destruct Hb as (row & <- & Hrow). now exists row.
Qed.

End CatalogFacts.

(** C4, as the code has it. The cleaner keeps a record with an identity
    key exactly when its rating parses to a number between 0 and 5: a
    rating that fails to parse becomes null, and the record is then
    removed by the range mask like one with a rating out of range.  After
    cleaning, every record has a rating between 0 and 5. *)
Theorem rating_mask_keeps_numbers_in_range
  (P : NumericParser) (rows : list Goodreads.Raw.Row) :
  (forall row,
      In row (Goodreads.goodreads_clean rows)
      <-> In row rows
          /\ Goodreads.create_composite_key row <> None
          /\ exists q, to_numeric (Goodreads.Raw.average_rating row) = Some q
                       /\ (0 <= q)%Q /\ (q <= 5)%Q)
  /\ (forall row,
        In row rows ->
        to_numeric (Goodreads.Raw.average_rating row) = None ->
        ~ In row (Goodreads.goodreads_clean rows))
  /\ (forall b,
        In b (Goodreads.goodreads_final rows) ->
        exists q, goodreads_rating b = Some q /\ (0 <= q)%Q /\ (q <= 5)%Q).
Proof.
  assert (Hclean : forall row,
      In row (Goodreads.goodreads_clean rows)
      <-> In row rows
          /\ Goodreads.create_composite_key row <> None
          /\ exists q, to_numeric (Goodreads.Raw.average_rating row) = Some q
                       /\ (0 <= q)%Q /\ (q <= 5)%Q).
  { intros row. unfold Goodreads.goodreads_clean.
    rewrite filter_In, with_key_In, rating_mask_true. tauto. }
  split; [exact Hclean|]. split.
  - intros row _ Hnan Hin. apply Hclean in Hin.
    destruct Hin as (_ & _ & q & Hq & _). congruence.
  - intros b Hb. apply goodreads_final_In in Hb.
    destruct Hb as (row & Hrow & ->). apply Hclean in Hrow.
    destruct Hrow as (_ & _ & q & Hq & Hr). exists q. split; [exact Hq|exact Hr].
Qed.

Lemma rating_mask_keeps_numbers_in_range_witness :
  let good := rated_row (CStr (lit "4.47")) in
  let bad := rated_row (CStr (lit "n/a")) in
  let rows := [good; bad] in
  let b := @Goodreads.finish Decimal.parser good in
  (In bad rows
   /\ @to_numeric Decimal.parser (CStr (lit "n/a")) = None
   /\ ~ In bad (@Goodreads.goodreads_clean Decimal.parser rows))
  /\ (In b (@Goodreads.goodreads_final Decimal.parser rows)
      /\ exists q, goodreads_rating b = Some q /\ (0 <= q)%Q /\ (q <= 5)%Q).
Proof.
  intros good bad rows b.
  assert (Hb : In b (@Goodreads.goodreads_final Decimal.parser rows))
    by (left; reflexivity).
  split.
  - split; [right; left; reflexivity|]. split; [reflexivity|].
    apply (proj1 (proj2
             (rating_mask_keeps_numbers_in_range Decimal.parser rows)));
      [right; left; reflexivity | reflexivity].
  - split; [exact Hb|].
    apply (proj2 (proj2
             (rating_mask_keeps_numbers_in_range Decimal.parser rows))).
    exact Hb.
Defined.

(** C4, as the claim states it, fails: a record with an identity key whose
    rating does not parse, or is missing, gets a null rating and is then
    removed, so a null rating alone does cause the record to be dropped. *)
Lemma unparsed_rating_row_removed :
  let text := rated_row (CStr (lit "n/a")) in
  let empty := rated_row CNaN in
  Goodreads.create_composite_key text = Some (lit "0439708184")
  /\ @Goodreads.rating_of Decimal.parser text = None
  /\ @Goodreads.goodreads_clean Decimal.parser [text] = []
  /\ @Goodreads.goodreads_final Decimal.parser [text] = []
  /\ Goodreads.create_composite_key empty = Some (lit "0439708184")
  /\ @Goodreads.rating_of Decimal.parser empty = None
  /\ @Goodreads.goodreads_final Decimal.parser [empty] = [].
Proof.
  intros text empty. repeat split; reflexivity.
Qed.

(** ** Publisher lists *)

(** C8, as the code has it. The flag keyword list and the canonical names
    of the synonym table overlap without either containing the other: the
    one canonical name missing from the keywords is RANDOM HOUSE, and the
    keywords that are not canonical names are CANONGATE and HACHETTE UK. *)
Theorem keywords_and_canonical_names :
  not_in Goodreads.canonical_names Goodreads.uk_publisher_keywords
  = [lit "RANDOM HOUSE"]
  /\ not_in Goodreads.uk_publisher_keywords Goodreads.canonical_names
     = [lit "CANONGATE"; lit "HACHETTE UK"]
  /\ Goodreads.canonical_names
     = [lit "PENGUIN"; lit "BLOOMSBURY"; lit "HARPERCOLLINS"; lit "MACMILLAN";
        lit "ORION"; lit "FABER"; lit "RANDOM HOUSE"]
  /\ Goodreads.flag_uk (Goodreads.standardize_publisher
                          (Some (lit "Random House Inc."))) = false.
Proof.
  repeat split; vm_compute; reflexivity.
Qed.

(** C8, as the claim states it, fails: the keyword list is not a superset
    of the canonical names, since RANDOM HOUSE is a canonical name and not
    a keyword. *)
Lemma random_house_not_a_keyword :
  In (lit "RANDOM HOUSE") Goodreads.canonical_names
  /\ ~ In (lit "RANDOM HOUSE") Goodreads.uk_publisher_keywords.
Proof.
  split.
  - vm_compute. tauto.
  - vm_compute. intuition discriminate.
Qed.

(** ** The join *)

Section SortFacts.
Variable A : Type.
Variable leb : A -> A -> bool.

Lemma insert_sorted_In (x y : A) (l : list A) :
  In y (insert_sorted leb x l) <-> y = x \/ In y l.
Proof.
  induction l as [|z l IH]; simpl.
  - intuition congruence.
  - destruct (leb x z); simpl; [intuition congruence|].
    rewrite IH. intuition congruence.
Qed.

Lemma isort_In (y : A) (l : list A) : In y (isort leb l) <-> In y l.
Proof.
  unfold isort. induction l as [|x l IH]; simpl; [tauto|].
  rewrite insert_sorted_In, IH. intuition congruence.
Qed.

End SortFacts.

Section JoinFacts.
Import Database.

Lemma sql_query_In (books : list Book) (community : list CommunityRating)
  (row : Master.Row) :
  In row (sql_query books community)
  <-> exists b c, In (b, c) (left_join books community)
                  /\ where_clause (b, c) = true
                  /\ row = select b c.
Proof.
  unfold sql_query. rewrite isort_In, in_map_iff. split.
  - intros ([b c] & <- & Hbc). apply filter_In in Hbc.
    exists b, c. simpl. tauto.
  - intros (b & c & Hin & Hw & ->). exists (b, c). simpl.
    split; [reflexivity|]. apply filter_In. tauto.
Qed.

Lemma left_join_In (books : list Book) (community : list CommunityRating)
  (b : Book) (c : option CommunityRating) :
  In (b, c) (left_join books community)
  <-> In b books
      /\ match c with
         | None => filter (on_isbn b) community = []
         | Some r => In r community /\ on_isbn b r = true
         end.
Proof.
  unfold left_join. rewrite in_flat_map. split.
  - intros (b' & Hb' & Hin).
    destruct (filter (on_isbn b') community) as [|r0 rs] eqn:Hf.
    + destruct Hin as [Heq | []]. injection Heq as <- <-. tauto.
    + apply in_map_iff in Hin. destruct Hin as (r & Heq & Hr).
      injection Heq as <- <-. rewrite <- Hf in Hr.
      apply filter_In in Hr. tauto.
  - intros [Hb Hc]. exists b. split; [exact Hb|].
    destruct c as [r|].
    + assert (Hr : In r (filter (on_isbn b) community))
        by (apply filter_In; tauto).
      destruct (filter (on_isbn b) community) as [|r0 rs]; [destruct Hr|].
      apply in_map_iff. now exists r.
    + rewrite Hc. now left.
Qed.

Lemma left_join_covers (books : list Book) (community : list CommunityRating)
  (b : Book) :
  In b books -> exists c, In (b, c) (left_join books community).
Proof.
  intros Hb. destruct (filter (on_isbn b) community) as [|r rs] eqn:Hf.
  - exists None. apply left_join_In. tauto.
  - exists (Some r). apply left_join_In. split; [exact Hb|].
    apply filter_In. rewrite Hf. now left.
Qed.

Lemma on_isbn_true (b : Book) (r : CommunityRating) :
  on_isbn b r = true
  <-> exists k, isbn b = Some k /\ c_isbn r = Some k.
Proof.
  unfold on_isbn, sql_eq_text, str_eqb.
  destruct (isbn b) as [x|], (c_isbn r) as [y|]; simpl.
  - destruct (list_eq_dec ascii_dec x y) as [->|Hne]; split.
    + intros _. now exists y.
    + reflexivity.
    + discriminate.
    + intros (k & Hx & Hy). congruence.
  - split; [discriminate|]. intros (k & _ & Hk). discriminate.
  - split; [discriminate|]. intros (k & Hk & _). discriminate.
  - split; [discriminate|]. intros (k & Hk & _). discriminate.
Qed.

Lemma where_clause_true (b : Book) (c : option CommunityRating) :
  where_clause (b, c) = true
  <-> is_uk_publisher b = true \/ exists r, c = Some r /\ c_isbn r <> None.
Proof.
  unfold where_clause. simpl.
  destruct (is_uk_publisher b); simpl; [tauto|].
  destruct c as [r|]; simpl.
  - destruct (c_isbn r) eqn:Hc; simpl; split.
    + intros _. right. exists r. split; [reflexivity|congruence].
    + reflexivity.
    + discriminate.
    + intros [Hf | (r' & Heq & Hn)]; [discriminate|].
      injection Heq as <-. congruence.
  - split; [discriminate|].
    intros [Hf | (r & Heq & _)]; discriminate.
Qed.

Lemma select_book (b b' : Book) (c c' : option CommunityRating) :
  select b c = select b' c' -> b = b'.
Proof.
  destruct b, b'. unfold select. simpl. intros Heq.
  injection Heq. intros. subst. reflexivity.
Qed.

Lemma book_category_chain (mean : option Q) (count : option Z) :
  book_category mean count = category_chain mean count.
Proof.
  unfold book_category, category_chain.
  destruct mean as [m|], count as [n|]; simpl;
    repeat match goal with
           | |- context [Qle_bool ?a ?b] => destruct (Qle_bool a b); simpl
           | |- context [Z.ltb ?a ?b] => destruct (Z.ltb a b); simpl
           | |- context [Z.leb ?a ?b] => destruct (Z.leb a b); simpl
           end; reflexivity.
Qed.

Lemma Qle_bool_false (a m : Q) : (m < a)%Q -> Qle_bool a m = false.
Proof.
  intros Hlt. destruct (Qle_bool a m) eqn:E; [|reflexivity].
  apply Qle_bool_iff in E. exfalso. exact (Qlt_not_le _ _ Hlt E).
Qed.

Lemma category_chain_cases (m : Q) (n : Z) :
  ((4 <= m)%Q -> (n < 500)%Z ->
   category_chain (Some m) (Some n) = lit "Hidden Gem")
  /\ ((4 <= m)%Q -> (500 <= n)%Z ->
      category_chain (Some m) (Some n) = lit "Popular Favorite")
  /\ ((m < 3)%Q -> category_chain (Some m) (Some n) = lit "Underperformer")
  /\ ((3 <= m)%Q -> (m < 4)%Q ->
      category_chain (Some m) (Some n) = lit "Average").
Proof.
  unfold category_chain, mean_at_least, mean_below, count_below,
    count_at_least.
  split; [|split; [|split]].
  - intros Hm Hn. apply Qle_bool_iff in Hm. apply Z.ltb_lt in Hn.
    now rewrite Hm, Hn.
  - intros Hm Hn. apply Qle_bool_iff in Hm. rewrite Hm.
    destruct (Z.ltb_spec n 500) as [Hlt | _]; [lia|].
    apply Z.leb_le in Hn. now rewrite Hn.
  - intros Hm.
    assert (H4 : (m < 4)%Q) by (eapply Qlt_trans; [exact Hm | reflexivity]).
    now rewrite (Qle_bool_false 4 m H4), (Qle_bool_false 3 m Hm).
  - intros H3 H4. apply Qle_bool_iff in H3.
    now rewrite (Qle_bool_false 4 m H4), H3.
Qed.

Lemma book_category_null (count : option Z) :
  book_category None count = lit "Average".
Proof.
  unfold book_category. destruct count as [n|]; simpl; [|reflexivity].
  destruct (Z.ltb n 500), (Z.leb 500 n); reflexivity.
Qed.

End JoinFacts.

(** C3. Every row of the join comes from a catalog row and the aggregate
    row joined to it (the one with the catalog row's identifier, or none),
    and its category is the one the priority chain gives for the rescaled
    mean of that aggregate and the review count of that catalog row:
    Hidden Gem for a rescaled mean of at least 4 with fewer than 500
    reviews, Popular Favorite for a rescaled mean of at least 4 with 500
    reviews or more, Underperformer for a rescaled mean below 3, Average
    otherwise; and a row without an aggregate is Average. *)
Theorem category_follows_priority_chain
  (books : list Book) (community : list CommunityRating)
  (row : Database.Master.Row) :
  In row (Database.sql_query books community) ->
  exists b c,
    In b books
    /\ match c with
       | Some r => In r community
                   /\ exists k, isbn b = Some k /\ c_isbn r = Some k
       | None => forall r, In r community ->
                   ~ exists k, isbn b = Some k /\ c_isbn r = Some k
       end
    /\ Database.Master.book_key row = book_key b
    /\ Database.Master.isbn row = isbn b
    /\ Database.Master.goodreads_review_count row = goodreads_review_count b
    /\ Database.Master.bc_rating row
       = Database.c_col bc_rating_normalized c
    /\ Database.Master.book_category row
       = category_chain (Database.c_col bc_rating_normalized c)
                        (goodreads_review_count b)
    /\ Database.Master.book_category row
       = category_chain (Database.Master.bc_rating row)
                        (Database.Master.goodreads_review_count row)
    /\ (c = None -> Database.Master.book_category row = lit "Average")
    /\ (Database.c_col bc_rating_normalized c = None ->
        Database.Master.book_category row = lit "Average")
    /\ (forall m n,
          Database.c_col bc_rating_normalized c = Some m ->
          goodreads_review_count b = Some n ->
          ((4 <= m)%Q -> (n < 500)%Z ->
           Database.Master.book_category row = lit "Hidden Gem")
          /\ ((4 <= m)%Q -> (500 <= n)%Z ->
              Database.Master.book_category row = lit "Popular Favorite")
          /\ ((m < 3)%Q ->
              Database.Master.book_category row = lit "Underperformer")
          /\ ((3 <= m)%Q -> (m < 4)%Q ->
              Database.Master.book_category row = lit "Average")).
Proof.
  intros Hrow. apply sql_query_In in Hrow.
  destruct Hrow as (b & c & Hin & _ & ->). exists b, c.
  apply left_join_In in Hin. destruct Hin as [Hb Hc].
  split; [exact Hb|]. split.
  { destruct c as [r|].
    - destruct Hc as [Hr Hon]. split; [exact Hr|]. now apply on_isbn_true.
    - intros r Hr Hk. apply on_isbn_true in Hk.
      assert (Hf : In r (filter (Database.on_isbn b) community))
        by (apply filter_In; tauto).
      rewrite Hc in Hf. destruct Hf. }
  simpl. repeat (split; [reflexivity|]).
  split; [apply book_category_chain|].
  split; [apply book_category_chain|].
  split; [intros ->; apply book_category_null|].
  split; [intros ->; apply book_category_null|].
  intros m n -> ->. rewrite book_category_chain. apply category_chain_cases.
Qed.

Lemma category_follows_priority_chain_witness :
  let b := sample_book true (Some 4.47%Q) (Some 120%Z) in
  let high := aggregate_row 9%Q 4.5%Q in
  let low := aggregate_row 5%Q 2.5%Q in
  (In (Database.select b (Some high)) (Database.sql_query [b] [high])
   /\ Database.Master.book_category (Database.select b (Some high))
      = lit "Hidden Gem")
  /\ (In (Database.select b (Some low)) (Database.sql_query [b] [low])
      /\ Database.Master.book_category (Database.select b (Some low))
         = lit "Underperformer")
  /\ (In (Database.select b None) (Database.sql_query [b] [])
      /\ Database.Master.book_category (Database.select b None)
         = lit "Average")
  /\ exists b' c',
       In b' [b]
       /\ match c' with
          | Some r => In r [low]
                      /\ exists k, isbn b' = Some k /\ c_isbn r = Some k
          | None => forall r, In r [low] ->
                      ~ exists k, isbn b' = Some k /\ c_isbn r = Some k
          end
       /\ Database.Master.book_category (Database.select b (Some low))
          = category_chain (Database.c_col bc_rating_normalized c')
                           (goodreads_review_count b').
Proof.
  intros b high low.
  assert (Hlow : In (Database.select b (Some low))
                    (Database.sql_query [b] [low])) by (left; reflexivity).
  split; [split; [left; reflexivity | reflexivity]|].
  split; [split; [exact Hlow | reflexivity]|].
  split; [split; [left; reflexivity | reflexivity]|].
  destruct (category_follows_priority_chain [b] [low] _ Hlow)
    as (b' & c' & Hb & Hc & _ & _ & _ & _ & Hcat & _).
  exists b', c'. split; [exact Hb|]. split; [exact Hc | exact Hcat].
Defined.

(** C2. A record of the cleaned catalog appears in the joined output
    exactly when it is flagged or an aggregate row is joined to it; the
    aggregate rows joined to a record are those with the record's
    identifier; and an unflagged record without a matching aggregate never
    appears. *)
Theorem retention_filter
  (books : list Book) (community : list CommunityRating) (b : Book) :
  ((exists c, In (Database.select b c) (Database.sql_query books community))
   <-> In b books
       /\ (is_uk_publisher b = true
           \/ exists r, In (b, Some r) (Database.left_join books community)))
  /\ (forall r,
        In (b, Some r) (Database.left_join books community)
        <-> In b books /\ In r community
            /\ exists k, isbn b = Some k /\ c_isbn r = Some k)
  /\ (is_uk_publisher b = false ->
      (forall r, In r community -> Database.on_isbn b r = false) ->
      forall c,
        ~ In (Database.select b c) (Database.sql_query books community)).
Proof.
  assert (Hjoin : forall r,
        In (b, Some r) (Database.left_join books community)
        <-> In b books /\ In r community
            /\ exists k, isbn b = Some k /\ c_isbn r = Some k).
  { intros r. rewrite left_join_In, on_isbn_true. tauto. }
  assert (Hiff :
    (exists c, In (Database.select b c) (Database.sql_query books community))
    <-> In b books
        /\ (is_uk_publisher b = true
            \/ exists r, In (b, Some r) (Database.left_join books community))).
  { split.
    - intros (c & Hrow). apply sql_query_In in Hrow.
      destruct Hrow as (b' & c' & Hin & Hw & Heq).
      apply select_book in Heq. subst b'.
      split; [apply left_join_In in Hin; tauto|].
      apply where_clause_true in Hw.
      destruct Hw as [Hflag | (r & -> & _)]; [now left|].
      right. now exists r.
    - intros [Hb [Hflag | (r & Hr)]].
      + destruct (left_join_covers books community b Hb) as (c & Hc).
        exists c. apply sql_query_In. exists b, c.
        split; [exact Hc|]. split; [|reflexivity].
        apply where_clause_true. now left.
      + exists (Some r). apply sql_query_In. exists b, (Some r).
        split; [exact Hr|]. split; [|reflexivity].
        apply where_clause_true. right. exists r. split; [reflexivity|].
        apply Hjoin in Hr. destruct Hr as (_ & _ & k & _ & Hk). congruence. }
  split; [exact Hiff|]. split; [exact Hjoin|].
  intros Hflag Hnone c Hrow.
  assert (Hex : exists c, In (Database.select b c)
                            (Database.sql_query books community))
    by now exists c.
  apply Hiff in Hex. destruct Hex as [_ [Ht | (r & Hr)]]; [congruence|].
  apply left_join_In in Hr. destruct Hr as (_ & Hr & Hon).
  rewrite (Hnone r Hr) in Hon. discriminate.
Qed.

Lemma retention_filter_witness :
  let b := sample_book false (Some 4.47%Q) (Some 4780000%Z) in
  is_uk_publisher b = false
  /\ (forall r, In r [] -> Database.on_isbn b r = false)
  /\ forall c, ~ In (Database.select b c) (Database.sql_query [b] []).
Proof.
  intros b. split; [reflexivity|]. split; [intros r []|].
  apply (retention_filter [b] [] b); [reflexivity | intros r []].
Defined.

(** ** The engagement score *)

Section ScoreFacts.
Import Database.
Local Open Scope R_scope.

Lemma ln_10_gt_1 : 1 < ln 10.
Proof.
  rewrite <- (ln_exp 1) at 1. apply ln_increasing.
  - apply exp_pos.
  - pose proof exp_le_3. lra.
Qed.

Lemma engagement_score_cases (b : Book) :
  (goodreads_rating b = None -> engagement_score b = None)
  /\ (forall r n,
        goodreads_rating b = Some r ->
        goodreads_review_count b = Some n ->
        (0 < n + 1)%Z ->
        engagement_score b = Some (Q2R r * (ln (IZR (n + 1)) / ln 10)))
  /\ (engagement_score b = None
      <-> goodreads_rating b = None
          \/ goodreads_review_count b = None
          \/ exists n, goodreads_review_count b = Some n /\ (n + 1 <= 0)%Z).
Proof.
  unfold engagement_score, sql_mul_real, sqlite_log.
  destruct (goodreads_rating b) as [r|], (goodreads_review_count b) as [n|];
    simpl.
  - destruct (Z.ltb_spec 0 (n + 1)) as [Hpos | Hneg].
    + split; [discriminate|]. split.
      * intros r' n' Hr Hn _. injection Hr as <-. injection Hn as <-.
        reflexivity.
      * split; [discriminate|].
        intros [Hf | [Hf | (n' & Hn & Hle)]]; try discriminate.
        injection Hn as <-. lia.
    + split; [discriminate|]. split.
      * intros r' n' _ Hn Hlt. injection Hn as <-. lia.
      * split; [|reflexivity]. intros _. right. right. now exists n.
  - split; [discriminate|]. split; [discriminate|].
    split; [|reflexivity]. intros _. right. now left.
  - split; [reflexivity|]. split; [discriminate|].
    split; [|reflexivity]. intros _. now left.
  - split; [reflexivity|]. split; [discriminate|].
    split; [|reflexivity]. intros _. now left.
Qed.

End ScoreFacts.

(** C1, as the code has it. For every row of the join, the engagement
    score is the catalog rating times the logarithm to base 10 of the
    review count plus one (SQLite's [LOG]).  It is null when the rating is
    null, and it is null exactly when the rating is null, the review count
    is null, or the review count plus one is not positive. *)
Theorem engagement_score_of_joined_rows
  (books : list Book) (community : list CommunityRating)
  (row : Database.Master.Row) :
  In row (Database.sql_query books community) ->
  (Database.Master.goodreads_rating row = None ->
   Database.Master.engagement_score row = None)
  /\ (forall r n,
        Database.Master.goodreads_rating row = Some r ->
        Database.Master.goodreads_review_count row = Some n ->
        (0 < n + 1)%Z ->
        Database.Master.engagement_score row
        = Some (Q2R r * (ln (IZR (n + 1)) / ln 10))%R)
  /\ (Database.Master.engagement_score row = None
      <-> Database.Master.goodreads_rating row = None
          \/ Database.Master.goodreads_review_count row = None
          \/ exists n, Database.Master.goodreads_review_count row = Some n
                       /\ (n + 1 <= 0)%Z).
Proof.
  intros Hrow. apply sql_query_In in Hrow.
  destruct Hrow as (b & c & _ & _ & ->). simpl.
  apply engagement_score_cases.
Qed.

Lemma engagement_score_of_joined_rows_witness :
  let b := sample_book true (Some 4.47%Q) (Some 4780000%Z) in
  let row := Database.select b None in
  let b0 := sample_book true None (Some 10%Z) in
  let row0 := Database.select b0 None in
  (In row (Database.sql_query [b] [])
   /\ Database.Master.goodreads_rating row = Some 4.47%Q
   /\ Database.Master.goodreads_review_count row = Some 4780000%Z
   /\ (0 < 4780000 + 1)%Z
   /\ Database.Master.engagement_score row
      = Some (Q2R 4.47%Q * (ln (IZR (4780000 + 1)) / ln 10))%R)
  /\ (In row0 (Database.sql_query [b0] [])
      /\ Database.Master.goodreads_rating row0 = None
      /\ Database.Master.engagement_score row0 = None).
Proof.
  intros b row b0 row0.
  assert (Hin : In row (Database.sql_query [b] [])) by (left; reflexivity).
  assert (Hin0 : In row0 (Database.sql_query [b0] [])) by (left; reflexivity).
  split.
  - split; [exact Hin|]. split; [reflexivity|]. split; [reflexivity|].
    split; [lia|].
    apply (proj1 (proj2 (engagement_score_of_joined_rows [b] [] row Hin)));
      [reflexivity | reflexivity | lia].
  - split; [exact Hin0|]. split; [reflexivity|].
    apply (proj1 (engagement_score_of_joined_rows [b0] [] row0 Hin0)).
    reflexivity.
Defined.

(** C1, as the claim states it, fails twice.  A joined row with rating 1
    and 9 reviews has the score 1, the logarithm of 10 to base 10, not the
    natural logarithm of 10; and a joined row with a rating and a review
    count of -1 has a null score although its rating is not null. *)
Lemma engagement_score_is_not_natural_log :
  let b := sample_book true (Some 1%Q) (Some 9%Z) in
  let row := Database.select b None in
  let b' := sample_book true (Some 4%Q) (Some (-1)%Z) in
  let row' := Database.select b' None in
  (In row (Database.sql_query [b] [])
   /\ Database.Master.goodreads_rating row = Some 1%Q
   /\ Database.Master.goodreads_review_count row = Some 9%Z
   /\ Database.Master.engagement_score row = Some 1%R
   /\ (1 <> Q2R 1 * ln (IZR (9 + 1)))%R)
  /\ (In row' (Database.sql_query [b'] [])
      /\ Database.Master.goodreads_rating row' = Some 4%Q
      /\ Database.Master.engagement_score row' = None).
Proof.
  intros b row b' row'. pose proof ln_10_gt_1 as Hln.
  split; [|split; [left; reflexivity|split; reflexivity]].
  split; [left; reflexivity|]. split; [reflexivity|]. split; [reflexivity|].
  split.
  - unfold row, b, Database.select, Database.engagement_score,
      Database.sql_mul_real, Database.sqlite_log, sample_book. simpl.
    f_equal. unfold Q2R. simpl. field. lra.
  - unfold Q2R. simpl. lra.
Qed.

(** ** Cohort aggregates *)

Section CohortFacts.
Import BookCrossing.

Lemma distinct_In (A : Type) (eqb : A -> A -> bool) (l : list A) (x : A) :
  In x (distinct eqb l) -> In x l.
Proof.
  induction l as [|y l IH]; simpl; [tauto|].
  intros [Hx | Hx]; [now left|]. right. apply IH.
  apply filter_In in Hx. tauto.
Qed.

Lemma dropna_keys_app (l1 l2 : list RatingWithUser) :
  dropna_keys (l1 ++ l2) = dropna_keys l1 ++ dropna_keys l2.
Proof. apply filter_app. Qed.

Lemma merge_left_cons (r : CleanRating) (rs : list CleanRating)
  (users : list CleanUser) :
  merge_left (r :: rs) users
  = match matching_users users r with
    | [] => [merge_row r None]
    | us => map (fun u => merge_row r (Some u)) us
    end ++ merge_left rs users.
Proof. reflexivity. Qed.

Lemma dropna_keys_merge_left (ratings : list CleanRating)
  (users : list CleanUser) :
  dropna_keys (merge_left ratings users)
  = dropna_keys (merge_left (filter (known_actor users) ratings) users).
Proof.
  induction ratings as [|r rs IH]; [reflexivity|].
  rewrite merge_left_cons, dropna_keys_app, IH. simpl filter.
  unfold known_actor at 2.
  destruct (matching_users users r) as [|u us] eqn:Hm.
  - reflexivity.
  - now rewrite merge_left_cons, dropna_keys_app, Hm.
Qed.

Lemma groupby_In (rows : list RatingWithUser) (d : DemographicInsight) :
  In d (groupby_isbn_age_group rows) -> d_age_group d <> None.
Proof.
  unfold groupby_isbn_age_group. cbv zeta. intros Hd.
  apply in_map_iff in Hd. destruct Hd as (k & <- & Hk).
  apply isort_In, distinct_In, in_map_iff in Hk.
  destruct Hk as (m & <- & Hm). apply filter_In in Hm.
  simpl. destruct (m_age_group m); [discriminate|].
  destruct Hm as [_ Hm]. discriminate Hm.
Qed.

End CohortFacts.

(** C6, as the code has it. A rating whose actor is not in the users table
    gets a null cohort from the left join, and the grouping by identifier
    and cohort leaves such rows out: the cohort aggregates are the same as
    if those ratings had not been there, no group has a null cohort, and
    every group kept has at least 5 ratings. *)
Theorem null_cohort_left_out
  (ratings : list BookCrossing.CleanRating)
  (users : list BookCrossing.CleanUser) :
  (forall r,
      In r ratings ->
      BookCrossing.matching_users users r = [] ->
      In (BookCrossing.merge_row r None)
         (BookCrossing.merge_left ratings users)
      /\ BookCrossing.m_age_group (BookCrossing.merge_row r None) = None)
  /\ BookCrossing.demographic_insights ratings users
     = BookCrossing.demographic_insights
         (filter (known_actor users) ratings) users
  /\ (forall d,
        In d (BookCrossing.demographic_insights ratings users) ->
        BookCrossing.d_age_group d <> None
        /\ 5 <= BookCrossing.d_rating_count d).
Proof.
  split; [|split].
  - intros r Hr Hm. split; [|reflexivity].
    unfold BookCrossing.merge_left. apply in_flat_map. exists r.
    split; [exact Hr|]. rewrite Hm. now left.
  - unfold BookCrossing.demographic_insights,
      BookCrossing.groupby_isbn_age_group. cbv zeta.
    now rewrite dropna_keys_merge_left.
  - intros d Hd. unfold BookCrossing.demographic_insights in Hd.
    apply filter_In in Hd. destruct Hd as [Hd Hn]. split.
    + eapply groupby_In. exact Hd.
    + now apply Nat.leb_le.
Qed.

Lemma null_cohort_left_out_witness :
  let ratings := sample_ratings [1; 2; 3; 4; 5; 6; 7; 7; 7; 7; 7]%Z in
  let users := [sample_user 7] in
  let r := {| BookCrossing.cr_user := 1%Z;
              BookCrossing.cr_isbn_clean := lit "0439708184";
              BookCrossing.cr_rating := 9%Z |} in
  let d := {| BookCrossing.d_isbn := lit "0439708184";
              BookCrossing.d_age_group := Some (lit "26-35");
              BookCrossing.d_rating_avg := (45 # 5)%Q;
              BookCrossing.d_rating_count := 5 |} in
  (In r ratings
   /\ BookCrossing.matching_users users r = []
   /\ In (BookCrossing.merge_row r None)
        (BookCrossing.merge_left ratings users))
  /\ BookCrossing.demographic_insights ratings users
     = BookCrossing.demographic_insights (sample_ratings [7; 7; 7; 7; 7]%Z)
         users
  /\ (In d (BookCrossing.demographic_insights ratings users)
      /\ BookCrossing.d_age_group d <> None
      /\ 5 <= BookCrossing.d_rating_count d).
Proof.
  intros ratings users r d.
  assert (Hr : In r ratings) by (left; reflexivity).
  assert (Hd : In d (BookCrossing.demographic_insights ratings users))
    by (left; reflexivity).
  split; [|split].
  - split; [exact Hr|]. split; [reflexivity|].
    apply (proj1 (null_cohort_left_out ratings users) r Hr). reflexivity.
  - apply (proj1 (proj2 (null_cohort_left_out ratings users))).
  - split; [exact Hd|].
    apply (proj2 (proj2 (null_cohort_left_out ratings users)) d Hd).
Defined.

(** C6, as the claim states it, fails: six ratings of one book by actors
    that are not in the users table all get a null cohort, which is above
    the support threshold of 5, and yet the cohort aggregates have no row
    at all for them. *)
Lemma null_cohort_is_no_group :
  let ratings := sample_ratings [1; 2; 3; 4; 5; 6]%Z in
  let users := [sample_user 7] in
  map BookCrossing.m_age_group (BookCrossing.merge_left ratings users)
  = [None; None; None; None; None; None]
  /\ map BookCrossing.m_isbn_clean (BookCrossing.merge_left ratings users)
     = repeat (lit "0439708184") 6
  /\ BookCrossing.demographic_insights ratings users = [].
Proof.
  intros ratings users. repeat split; reflexivity.
Qed.

(** ** Missing inputs *)

Section RunFacts.
Import Database.

Lemma main_stops (s : Script) (rest : list Script) (n : nat) (w : World) :
  fst (s w) = false -> RunAll.main (s :: rest) n w = (n, snd (s w)).
Proof. simpl. destruct (s w) as [ok w']. simpl. now intros ->. Qed.

Lemma main_continues (s : Script) (rest : list Script) (n : nat) (w : World) :
  fst (s w) = true ->
  RunAll.main (s :: rest) n w = RunAll.main rest (S n) (snd (s w)).
Proof. simpl. destruct (s w) as [ok w']. simpl. now intros ->. Qed.

End RunFacts.

(** C7, as the code has it. When the cleaned catalog is missing, the join
    stage fails without writing anything and the runner stops there, so
    no later stage runs.  When the rating aggregates are missing, the join
    stage goes on: it joins the catalog with the [community_ratings] table
    as the database has it, writes the master dataset, ends with success,
    and the runner goes on to the later stages. *)
Theorem join_stage_missing_inputs
  (w : Database.World) (rest : list Database.Script) (n : nat) :
  (Database.goodreads_cleaned_csv w = None ->
   Database.script_04 w = (false, w)
   /\ RunAll.main (Database.script_04 :: rest) n w = (n, w))
  /\ (forall goodreads,
        Database.goodreads_cleaned_csv w = Some goodreads ->
        Database.bc_ratings_aggregated_csv w = None ->
        fst (Database.script_04 w) = true
        /\ Database.master_dataset_csv (snd (Database.script_04 w))
           = Some (Database.sql_query goodreads
                     (Database.community_ratings_table w))
        /\ RunAll.main (Database.script_04 :: rest) n w
           = RunAll.main rest (S n) (snd (Database.script_04 w))).
Proof.
  split.
  - intros Hg.
    assert (H4 : Database.script_04 w = (false, w))
      by (unfold Database.script_04; now rewrite Hg).
    split; [exact H4|]. rewrite main_stops; rewrite H4; reflexivity.
  - intros goodreads Hg Hbc.
    assert (H4 : fst (Database.script_04 w) = true)
      by (unfold Database.script_04; now rewrite Hg).
    split; [exact H4|]. split.
    + unfold Database.script_04. rewrite Hg, Hbc. reflexivity.
    + now apply main_continues.
Qed.

Lemma join_stage_missing_inputs_witness :
  let b := sample_book true (Some 4.47%Q) (Some 4780000%Z) in
  (Database.goodreads_cleaned_csv world_without_catalog = None
   /\ Database.script_04 world_without_catalog
      = (false, world_without_catalog)
   /\ RunAll.main [Database.script_04; Database.script_05] 3
        world_without_catalog
      = (3, world_without_catalog))
  /\ (Database.goodreads_cleaned_csv world_without_aggregates = Some [b]
      /\ Database.bc_ratings_aggregated_csv world_without_aggregates = None
      /\ fst (Database.script_04 world_without_aggregates) = true
      /\ Database.master_dataset_csv
           (snd (Database.script_04 world_without_aggregates))
         = Some (Database.sql_query [b] [])
      /\ RunAll.main [Database.script_04; Database.script_05] 3
           world_without_aggregates
         = RunAll.main [Database.script_05] 4
             (snd (Database.script_04 world_without_aggregates))).
Proof.
  intros b. split.
  - split; [reflexivity|].
    apply (proj1 (join_stage_missing_inputs world_without_catalog
                    [Database.script_05] 3)).
    reflexivity.
  - split; [reflexivity|]. split; [reflexivity|].
    apply (proj2 (join_stage_missing_inputs world_without_aggregates
                    [Database.script_05] 3) [b]);
      reflexivity.
Defined.

(** C7, as the claim states it, fails: with the rating aggregates missing
    and the catalog there, the join stage ends with success and writes a
    master dataset, and the runner goes on to run the next stage. *)
Lemma join_stage_runs_without_aggregates :
  let w := world_without_aggregates in
  Database.bc_ratings_aggregated_csv w = None
  /\ fst (Database.script_04 w) = true
  /\ Database.master_dataset_csv (snd (Database.script_04 w))
     = Some [Database.select
               (sample_book true (Some 4.47%Q) (Some 4780000%Z)) None]
  /\ fst (RunAll.main [Database.script_04; Database.script_05] 0 w) = 2
  /\ Database.executive_summary_total_books
       (snd (RunAll.main [Database.script_04; Database.script_05] 0 w))
     = Some 1.
Proof.
  intros w. repeat split; reflexivity.
Qed.

(** * Further properties of the scripts *)

(** ** Trimming and the character classes *)

Section TrimFacts.

Lemma space_char (c : ascii) :
  is_space c = true ->
  is_AZ09 (upper_char c) = false /\ is_space (upper_char c) = true.
Proof.
  destruct c as [[] [] [] [] [] [] [] []]; vm_compute; intro Hc;
    try discriminate Hc; split; reflexivity.
Qed.

Lemma upper_char_space (c : ascii) :
  is_space (upper_char c) = is_space c.
Proof. destruct c as [[] [] [] [] [] [] [] []]; reflexivity. Qed.

Lemma dash_space_not_AZ09 (c : ascii) :
  is_dash_or_space c = true -> is_AZ09 c = false.
Proof.
  intros Hd. destruct (is_AZ09 c) eqn:Hc; [|reflexivity].
  destruct (AZ09_char c Hc) as (_ & _ & Hn & _). congruence.
Qed.

Lemma keep_AZ09_remove_dash_space (s : str) :
  keep_AZ09 (remove_dash_space s) = keep_AZ09 s.
Proof.
  unfold keep_AZ09, remove_dash_space.
  induction s as [|c t IH]; [reflexivity|]. simpl.
  destruct (is_dash_or_space c) eqn:Hd; simpl.
  - now rewrite (dash_space_not_AZ09 c Hd).
  - now rewrite IH.
Qed.

Lemma keep_AZ09_upper_lstrip (s : str) :
  keep_AZ09 (upper (lstrip s)) = keep_AZ09 (upper s).
Proof.
  induction s as [|c t IH]; [reflexivity|]. simpl.
  destruct (is_space c) eqn:Hs; [|reflexivity].
  destruct (space_char c Hs) as [Hn _].
  unfold keep_AZ09, upper in *. simpl. now rewrite Hn.
Qed.

Lemma keep_AZ09_upper_rev (s : str) :
  keep_AZ09 (upper (rev s)) = rev (keep_AZ09 (upper s)).
Proof. unfold keep_AZ09, upper. now rewrite map_rev, filter_rev. Qed.

Lemma keep_AZ09_upper_strip (s : str) :
  keep_AZ09 (upper (strip s)) = keep_AZ09 (upper s).
Proof.
  unfold strip, rstrip.
  rewrite keep_AZ09_upper_rev, keep_AZ09_upper_lstrip, keep_AZ09_upper_rev,
    rev_involutive.
  apply keep_AZ09_upper_lstrip.
Qed.

Lemma lstrip_head (s : str) : head_not_space (lstrip s).
Proof.
  induction s as [|c t IH]; simpl; [exact I|].
  destruct (is_space c) eqn:Hs; [exact IH | exact Hs].
Qed.

Lemma lstrip_fixed (s : str) : head_not_space s -> lstrip s = s.
Proof. destruct s as [|c t]; simpl; [reflexivity|]. now intros ->. Qed.

Lemma lstrip_idempotent (s : str) : lstrip (lstrip s) = lstrip s.
Proof. apply lstrip_fixed, lstrip_head. Qed.

Lemma lstrip_snoc (s : str) (c : ascii) :
  is_space c = false -> lstrip (s ++ [c]) = lstrip s ++ [c].
Proof.
  intros Hc. induction s as [|x t IH]; simpl.
  - now rewrite Hc.
  - destruct (is_space x); [exact IH | reflexivity].
Qed.

Lemma rstrip_cons (c : ascii) (s : str) :
  is_space c = false -> rstrip (c :: s) = c :: rstrip s.
Proof.
  intros Hc. unfold rstrip. simpl.
  rewrite (lstrip_snoc (rev s) c Hc), rev_app_distr. reflexivity.
Qed.

Lemma rstrip_head (s : str) : head_not_space s -> head_not_space (rstrip s).
Proof.
  destruct s as [|c t]; simpl; [intros _; exact I|].
  intros Hc. now rewrite (rstrip_cons c t Hc).
Qed.

Lemma rstrip_idempotent (s : str) : rstrip (rstrip s) = rstrip s.
Proof.
  unfold rstrip. now rewrite rev_involutive, lstrip_idempotent.
Qed.

Lemma strip_idempotent (s : str) : strip (strip s) = strip s.
Proof.
  unfold strip.
  rewrite (lstrip_fixed (rstrip (lstrip s)) (rstrip_head _ (lstrip_head s))).
  apply rstrip_idempotent.
Qed.

Lemma upper_lstrip (s : str) : upper (lstrip s) = lstrip (upper s).
Proof.
  induction s as [|c t IH]; [reflexivity|]. simpl.
  rewrite upper_char_space. destruct (is_space c); [exact IH | reflexivity].
Qed.

Lemma upper_strip (s : str) : upper (strip s) = strip (upper s).
Proof.
  unfold strip, rstrip, upper.
  rewrite map_rev. fold (upper (lstrip (rev (lstrip s)))).
  rewrite upper_lstrip. unfold upper. rewrite map_rev.
  fold (upper (lstrip s)). now rewrite upper_lstrip.
Qed.

End TrimFacts.

(** X1. The result of [clean_isbn] depends only on the letters and digits
    of the raw identifier, put in upper case: white space, hyphens and any
    other character have no influence, and the result is that string when
    it has 10 or 13 characters and nothing otherwise. *)
Theorem clean_isbn_letters_and_digits (s : str) :
  Goodreads.clean_isbn (Some s)
  = (if (Nat.eqb (List.length (keep_AZ09 (upper s))) 10
         || Nat.eqb (List.length (keep_AZ09 (upper s))) 13)%bool
     then Some (keep_AZ09 (upper s))
     else None)
  /\ BookCrossing.clean_isbn (Some s) = Goodreads.clean_isbn (Some s).
Proof.
  split; [|reflexivity]. unfold Goodreads.clean_isbn. cbv zeta.
  now rewrite keep_AZ09_remove_dash_space, keep_AZ09_upper_strip.
Qed.

(** ** Keys of the cleaned catalog *)

(** X2. A fallback key is [COMP_], at most 30 letters and digits of the
    title, an underscore, and at most 20 letters and digits of the first
    author: it has between 6 and 56 characters. *)
Theorem fallback_key_parts (row : Goodreads.Raw.Row) (k : str) :
  Goodreads.ISBN row = None ->
  Goodreads.create_composite_key row = Some k ->
  exists t a,
    k = Goodreads.COMP_ ++ t ++ [underscore] ++ a
    /\ all_AZ09 t /\ List.length t <= 30
    /\ all_AZ09 a /\ List.length a <= 20
    /\ 6 <= List.length k <= 56.
Proof.
  intros HI. unfold Goodreads.create_composite_key. rewrite HI. cbv zeta.
  destruct (truthy _ && truthy _)%bool; [|discriminate].
  intros Hk.
  set (t := slice_to 30
              (keep_AZ09 (Goodreads.field_text (Goodreads.Raw.title row)))).
  set (a := slice_to 20
              (keep_AZ09 (split_first
                 (Goodreads.field_text (Goodreads.Raw.authors row))))).
  assert (Ht : List.length t <= 30) by apply firstn_le_length.
  assert (Ha : List.length a <= 20) by apply firstn_le_length.
  exists t, a.
  assert (Hk' : k = Goodreads.COMP_ ++ t ++ [underscore] ++ a)
    by (symmetry; now injection Hk).
  split; [exact Hk'|].
  split; [apply all_AZ09_firstn, keep_AZ09_all|]. split; [exact Ht|].
  split; [apply all_AZ09_firstn, keep_AZ09_all|]. split; [exact Ha|].
  rewrite Hk', !length_app. simpl. lia.
Qed.

Lemma fallback_key_parts_witness :
  let row := untitled_row "Emma" "Austen, Jane" in
  Goodreads.ISBN row = None
  /\ Goodreads.create_composite_key row = Some (lit "COMP_EMMA_AUSTEN")
  /\ exists t a,
       lit "COMP_EMMA_AUSTEN" = Goodreads.COMP_ ++ t ++ [underscore] ++ a
       /\ all_AZ09 t /\ List.length t <= 30
       /\ all_AZ09 a /\ List.length a <= 20
       /\ 6 <= List.length (lit "COMP_EMMA_AUSTEN") <= 56.
Proof.
  intros row. split; [reflexivity|]. split; [reflexivity|].
  apply (fallback_key_parts row (lit "COMP_EMMA_AUSTEN")); reflexivity.
Defined.

Section KeyFacts.
Import Goodreads.
Context {P : NumericParser}.

Lemma ISBN_valid (row : Raw.Row) (i : str) :
  ISBN row = Some i -> valid_identifier i.
Proof.
  unfold ISBN, fillna.
  destruct (clean_isbn (Raw.isbn13 row)) as [r|] eqn:H13.
  - intros Hi. injection Hi as <-. exact (clean_isbn_valid _ _ H13).
  - apply clean_isbn_valid.
Qed.

Lemma same_key_eq (a b : option str) : same_key a b = true <-> a = b.
Proof.
  unfold same_key, str_eqb. destruct a as [x|], b as [y|].
  - destruct (list_eq_dec ascii_dec x y) as [->|Hne]; split;
      congruence.
  - split; discriminate.
  - split; discriminate.
  - split; reflexivity.
Qed.

Lemma seen_key (k : option str) (seen : list (option str)) :
  existsb (same_key k) seen = true <-> In k seen.
Proof.
  rewrite existsb_exists. split.
  - intros (x & Hx & Hs). apply same_key_eq in Hs. now subst.
  - intros Hk. exists k. split; [exact Hk|]. now apply same_key_eq.
Qed.

Lemma drop_duplicates_first (seen : list (option str)) (l : list Book)
  (b : Book) :
  In b (drop_duplicates seen l)
  <-> exists l1 l2, l = l1 ++ b :: l2
                    /\ ~ In (book_key b) (map book_key l1)
                    /\ ~ In (book_key b) seen.
Proof.
  revert seen. induction l as [|x l IH]; intros seen; simpl.
  - split; [tauto|]. intros (l1 & l2 & Hl & _). now destruct l1.
  - destruct (existsb (same_key (book_key x)) seen) eqn:Hx.
    + apply seen_key in Hx. rewrite IH. split.
      * intros (l1 & l2 & -> & Hn1 & Hn). exists (x :: l1), l2.
        split; [reflexivity|]. split; [|exact Hn].
        simpl. intros [Heq | Hin]; [|now apply Hn1]. congruence.
      * intros (l1 & l2 & Hl & Hn1 & Hn). destruct l1 as [|y l1].
        -- simpl in Hl. injection Hl as -> ->. contradiction.
        -- simpl in Hl. injection Hl as -> ->. exists l1, l2.
           split; [reflexivity|]. split; [|exact Hn].
           intros Hin. apply Hn1. now right.
    + assert (Hx' : ~ In (book_key x) seen).
      { intros Hin. apply seen_key in Hin. congruence. }
      simpl. rewrite IH. split.
      * intros [-> | (l1 & l2 & -> & Hn1 & Hn)].
        -- exists [], l. simpl. tauto.
        -- exists (x :: l1), l2. split; [reflexivity|]. simpl in Hn.
           simpl. split; [|tauto]. intros [Heq | Hin]; tauto.
      * intros (l1 & l2 & Hl & Hn1 & Hn). destruct l1 as [|y l1].
        -- simpl in Hl. injection Hl as -> ->. now left.
        -- simpl in Hl. injection Hl as -> ->. right. exists l1, l2.
           split; [reflexivity|]. simpl in Hn1. simpl. tauto.
Qed.

Lemma drop_duplicates_NoDup (seen : list (option str)) (l : list Book) :
  NoDup (map book_key (drop_duplicates seen l)).
Proof.
  revert seen. induction l as [|x l IH]; intros seen; simpl.
  - constructor.
  - destruct (existsb (same_key (book_key x)) seen); [apply IH|].
    simpl. constructor; [|apply IH].
    intros Hin. apply in_map_iff in Hin. destruct Hin as (b & Hb & Hin).
    apply drop_duplicates_first in Hin.
    destruct Hin as (_ & _ & _ & _ & Hn). apply Hn. left. now symmetry.
Qed.



End KeyFacts.

(** X3. Every row of the cleaned catalog has a key.  When the row has an
    identifier, the key is that identifier, which has 10 or 13 capital
    letters and digits; when it has none, the key begins with [COMP_]. *)
Theorem cleaned_catalog_keys
  (P : NumericParser) (rows : list Goodreads.Raw.Row) (b : Book) :
  In b (Goodreads.goodreads_final rows) ->
  exists k,
    book_key b = Some k
    /\ ((isbn b = Some k /\ valid_identifier k)
        \/ (isbn b = None /\ starts_with Goodreads.COMP_ k = true)).
Proof.
  intros Hb. apply goodreads_final_In in Hb. destruct Hb as (row & Hrow & ->).
  unfold Goodreads.goodreads_clean in Hrow. apply filter_In in Hrow.
  destruct Hrow as [Hrow _]. apply with_key_In in Hrow.
  destruct Hrow as [_ Hk]. simpl.
  destruct (Goodreads.create_composite_key row) as [k|] eqn:Hkey;
    [|congruence].
  exists k. split; [reflexivity|].
  destruct (Goodreads.ISBN row) as [i|] eqn:HI.
  - left. unfold Goodreads.create_composite_key in Hkey. rewrite HI in Hkey.
    injection Hkey as <-. split; [reflexivity|]. exact (ISBN_valid row i HI).
  - right. split; [reflexivity|].
    destruct (fallback_key_shape row k HI Hkey) as (t & a & _ & _ & ->).
    reflexivity.
Qed.

Lemma cleaned_catalog_keys_witness :
  let rows := [rated_row (CStr (lit "4.47"))] in
  let b := @Goodreads.finish Decimal.parser (rated_row (CStr (lit "4.47"))) in
  In b (@Goodreads.goodreads_final Decimal.parser rows)
  /\ exists k,
       book_key b = Some k
       /\ ((isbn b = Some k /\ valid_identifier k)
           \/ (isbn b = None /\ starts_with Goodreads.COMP_ k = true)).
Proof.
  intros rows b.
  assert (Hb : In b (@Goodreads.goodreads_final Decimal.parser rows))
    by (left; reflexivity).
  split; [exact Hb|].
  apply (cleaned_catalog_keys Decimal.parser rows b Hb).
Defined.

(** X4. The cleaned catalog has no two rows with the same key. *)
Theorem cleaned_catalog_keys_unique
  (P : NumericParser) (rows : list Goodreads.Raw.Row) :
  NoDup (map book_key (Goodreads.goodreads_final rows)).
Proof. apply drop_duplicates_NoDup. Qed.

(** X5. Deduplication keeps, for every key, the first row that has it: a
    row is kept exactly when no row before it has its key. *)
Theorem drop_duplicates_keeps_first (l : list Book) (b : Book) :
  In b (Goodreads.drop_duplicates [] l)
  <-> exists l1 l2, l = l1 ++ b :: l2
                    /\ ~ In (book_key b) (map book_key l1).
Proof.
  rewrite drop_duplicates_first. split.
  - intros (l1 & l2 & Hl & Hn & _). now exists l1, l2.
  - intros (l1 & l2 & Hl & Hn). exists l1, l2. simpl. tauto.
Qed.

(** ** Columns of the cleaned catalog *)

Section ColumnFacts.
Import Goodreads.
Context {P : NumericParser}.

Lemma Qle_bool_true_or_lt (a b : Q) :
  Qle_bool a b = false -> (b < a)%Q.
Proof.
  intros Hf. apply Qnot_le_lt. intros Hle.
  apply Qle_bool_iff in Hle. congruence.
Qed.



Lemma astype_int_in_range (q : Q) :
  (- 2 ^ 63 <= Z.quot (Qnum q) (Zpos (Qden q)) < 2 ^ 63)%Z ->
  astype_int q = Z.quot (Qnum q) (Zpos (Qden q)).
Proof.
  intros [Hlo Hhi]. unfold astype_int. cbv zeta.
  apply Z.leb_le in Hlo. apply Z.ltb_lt in Hhi. now rewrite Hlo, Hhi.
Qed.

Lemma trunc_nonneg (q : Q) :
  (0 <= q)%Q ->
  (0 <= Z.quot (Qnum q) (Zpos (Qden q)))%Z
  /\ (inject_Z (Z.quot (Qnum q) (Zpos (Qden q))) <= q)%Q
  /\ (q < inject_Z (Z.quot (Qnum q) (Zpos (Qden q)) + 1))%Q.
Proof.
  destruct q as [a d]. unfold Qle, Qlt, inject_Z. simpl. intros Hpos.
  assert (Ha : (0 <= a)%Z) by lia.
  rewrite Z.quot_div_nonneg by lia.
  pose proof (Z.mul_div_le a (Zpos d) ltac:(lia)) as Hle.
  pose proof (Z.mul_succ_div_gt a (Zpos d) ltac:(lia)) as Hgt.
  split; [apply Z.div_pos; lia|]. split; lia.
Qed.

Lemma trunc_nonpos (q : Q) :
  (q <= 0)%Q ->
  (Z.quot (Qnum q) (Zpos (Qden q)) <= 0)%Z
  /\ (q <= inject_Z (Z.quot (Qnum q) (Zpos (Qden q))))%Q
  /\ (inject_Z (Z.quot (Qnum q) (Zpos (Qden q)) - 1) < q)%Q.
Proof.
  destruct q as [a d]. unfold Qle, Qlt, inject_Z. simpl. intros Hneg.
  assert (Ha : (0 <= - a)%Z) by lia.
  assert (Ht : Z.quot a (Zpos d) = (- (- a / Zpos d))%Z).
  { rewrite <- (Z.opp_involutive a) at 1.
    rewrite Z.quot_opp_l by lia. now rewrite Z.quot_div_nonneg by lia. }
  rewrite Ht.
  pose proof (Z.mul_div_le (- a) (Zpos d) ltac:(lia)) as Hle.
  pose proof (Z.mul_succ_div_gt (- a) (Zpos d) ltac:(lia)) as Hgt.
  pose proof (Z.div_pos (- a) (Zpos d) Ha ltac:(lia)) as Hdiv.
  split; [lia|]. split; nia.
Qed.

End ColumnFacts.



(** X7. The script writes no catalog when a row kept by the rating mask
    has an infinite review count (the cast to integers raises).  When it
    writes one, the review count of every row is not null: a count that is
    missing or does not parse is 0, and a count that parses and lies
    within the 64-bit integers is cut to its integer part, towards
    zero. *)
Theorem review_count_defaults_to_zero
  (P : NumericParser) (rows : list Goodreads.Raw.Row) :
  (Goodreads.script_02 rows = None
   <-> exists row, In row (Goodreads.goodreads_clean rows)
                   /\ Goodreads.count_is_infinite row = true)
  /\ (forall final b,
        Goodreads.script_02 rows = Some final ->
        In b final ->
        exists row n,
          In row rows
          /\ Goodreads.count_is_infinite row = false
          /\ b = Goodreads.finish row
          /\ goodreads_review_count b = Some n
          /\ (to_numeric (Goodreads.Raw.ratings_count row) = None ->
              n = 0%Z)
          /\ (forall q,
                to_numeric (Goodreads.Raw.ratings_count row) = Some q ->
                (0 <= q)%Q -> (q < inject_Z (2 ^ 63))%Q ->
                (0 <= n)%Z /\ (inject_Z n <= q)%Q
                /\ (q < inject_Z (n + 1))%Q)
          /\ (forall q,
                to_numeric (Goodreads.Raw.ratings_count row) = Some q ->
                (q <= 0)%Q -> (inject_Z (- 2 ^ 63) <= q)%Q ->
                (n <= 0)%Z /\ (q <= inject_Z n)%Q
                /\ (inject_Z (n - 1) < q)%Q)).
Proof.
  unfold Goodreads.script_02. split.
  - destruct (existsb Goodreads.count_is_infinite
                (Goodreads.goodreads_clean rows)) eqn:He.
    + split; [|reflexivity]. intros _. apply existsb_exists in He.
      exact He.
    + split; [discriminate|]. intros Hex. apply existsb_exists in Hex.
      congruence.
  - intros final b Hfinal Hb.
    destruct (existsb Goodreads.count_is_infinite
                (Goodreads.goodreads_clean rows)) eqn:He; [discriminate|].
    injection Hfinal as <-.
    apply goodreads_final_In in Hb. destruct Hb as (row & Hrow & ->).
    exists row, (Goodreads.review_count_of row).
    assert (Hfin : Goodreads.count_is_infinite row = false).
    { destruct (Goodreads.count_is_infinite row) eqn:Hi; [|reflexivity].
      assert (Hex : existsb Goodreads.count_is_infinite
                      (Goodreads.goodreads_clean rows) = true)
        by (apply existsb_exists; now exists row).
      congruence. }
    split.
    { unfold Goodreads.goodreads_clean in Hrow. apply filter_In in Hrow.
      destruct Hrow as [Hrow _]. apply with_key_In in Hrow. tauto. }
    split; [exact Hfin|]. split; [reflexivity|]. split; [reflexivity|].
    unfold Goodreads.review_count_of.
    destruct (to_numeric (Goodreads.Raw.ratings_count row)) as [q|].
    + split; [discriminate|]. split.
      * intros q' Hq Hpos Hmax. injection Hq as <-.
        destruct (trunc_nonneg q Hpos) as (Hn & Hlo & Hhi).
        rewrite astype_int_in_range; [tauto|].
        split; [lia|].
        apply (Qle_lt_trans _ _ _ Hlo) in Hmax.
        unfold Qlt, inject_Z in Hmax. simpl in Hmax. lia.
      * intros q' Hq Hneg Hmin. injection Hq as <-.
        destruct (trunc_nonpos q Hneg) as (Hn & Hlo & Hhi).
        rewrite astype_int_in_range; [tauto|].
        split; [|lia].
        apply (Qle_trans _ _ _ Hmin) in Hlo.
        unfold Qle, inject_Z in Hlo. simpl in Hlo. lia.
    + split; [reflexivity|]. split; discriminate.
Qed.

Lemma review_count_defaults_to_zero_witness :
  let text := counted_row (CStr (lit "many")) in
  let frac := counted_row (CStr (lit "4780000.9")) in
  let inf := counted_row (CStr (lit "inf")) in
  (@Goodreads.script_02 Decimal.parser [text]
   = Some [@Goodreads.finish Decimal.parser text]
   /\ goodreads_review_count (@Goodreads.finish Decimal.parser text)
      = Some 0%Z)
  /\ (@Goodreads.script_02 Decimal.parser [frac]
      = Some [@Goodreads.finish Decimal.parser frac]
      /\ goodreads_review_count (@Goodreads.finish Decimal.parser frac)
         = Some 4780000%Z
      /\ exists row n,
           In row [frac]
           /\ @Goodreads.count_is_infinite Decimal.parser row = false
           /\ @Goodreads.finish Decimal.parser frac
              = @Goodreads.finish Decimal.parser row
           /\ goodreads_review_count (@Goodreads.finish Decimal.parser frac)
              = Some n)
  /\ (@Goodreads.script_02 Decimal.parser [inf] = None
      /\ exists row, In row (@Goodreads.goodreads_clean Decimal.parser [inf])
                     /\ @Goodreads.count_is_infinite Decimal.parser row
                        = true).
Proof.
  intros text frac inf.
  split; [split; reflexivity|]. split.
  - split; [reflexivity|]. split; [reflexivity|].
    destruct (proj2 (review_count_defaults_to_zero Decimal.parser [frac])
                [@Goodreads.finish Decimal.parser frac]
                (@Goodreads.finish Decimal.parser frac)
                eq_refl (or_introl eq_refl))
      as (row & n & Hrow & Hfin & Hb & Hn & _).
    exists row, n. tauto.
  - split; [reflexivity|].
    apply (proj1 (proj1 (review_count_defaults_to_zero Decimal.parser
                           [inf]))).
    reflexivity.
Defined.

(** ** Publisher names *)

Section PublisherFacts.
Import Goodreads.

Lemma first_match_split (pub : str) (table : list (str * list str))
  (name : str) :
  first_match pub table = Some name
  <-> exists before variations after,
        table = before ++ (name, variations) :: after
        /\ existsb (fun var => contains var pub) variations = true
        /\ forall e, In e before ->
                     existsb (fun var => contains var pub) (snd e) = false.
Proof.
  induction table as [|[n vs] rest IH]; simpl.
  - split; [discriminate|]. intros (b & v & a & Ht & _). now destruct b.
  - destruct (existsb (fun var => contains var pub) vs) eqn:Hm.
    + split.
      * intros Hn. injection Hn as <-. exists [], vs, rest.
        split; [reflexivity|]. split; [exact Hm|]. intros e [].
      * intros (b & v & a & Ht & Hv & Hb). destruct b as [|e b].
        -- simpl in Ht. inversion Ht. reflexivity.
        -- simpl in Ht. inversion Ht. subst e.
           specialize (Hb (n, vs) (or_introl eq_refl)). simpl in Hb.
           congruence.
    + rewrite IH. split.
      * intros (b & v & a & -> & Hv & Hb). exists ((n, vs) :: b), v, a.
        split; [reflexivity|]. split; [exact Hv|].
        intros e [<- | He]; [exact Hm | now apply Hb].
      * intros (b & v & a & Ht & Hv & Hb). destruct b as [|e b].
        -- simpl in Ht. inversion Ht. subst. congruence.
        -- simpl in Ht. inversion Ht. subst. exists b, v, a.
           split; [reflexivity|]. split; [exact Hv|].
           intros e' He. apply Hb. now right.
Qed.

Lemma first_match_none (pub : str) (table : list (str * list str)) :
  first_match pub table = None
  <-> forall e, In e table ->
                existsb (fun var => contains var pub) (snd e) = false.
Proof.
  induction table as [|[n vs] rest IH]; simpl.
  - split; [intros _ e [] | reflexivity].
  - destruct (existsb (fun var => contains var pub) vs) eqn:Hm.
    + split; [discriminate|]. intros Hall.
      specialize (Hall (n, vs) (or_introl eq_refl)). simpl in Hall.
      congruence.
    + rewrite IH. split.
      * intros Hall e [<- | He]; [exact Hm | now apply Hall].
      * intros Hall e He. apply Hall. now right.
Qed.

Lemma first_match_canonical (pub name : str) :
  first_match pub uk_publishers = Some name -> In name canonical_names.
Proof.
  intros Hm. apply first_match_split in Hm.
  destruct Hm as (b & v & a & Ht & _). unfold canonical_names.
  rewrite Ht, map_app. apply in_or_app. right. now left.
Qed.

Lemma canonical_name_fixed (name : str) :
  In name canonical_names -> standardize_publisher (Some name) = name.
Proof.
  unfold canonical_names, uk_publishers. simpl.
  intros [<- | [<- | [<- | [<- | [<- | [<- | [<- | []]]]]]]];
    vm_compute; reflexivity.
Qed.

End PublisherFacts.

(** X8. Standardizing a publisher name is idempotent: a standardized name
    (a canonical name, a trimmed name that matches nothing, or "Unknown"
    for a missing publisher) is standardized to itself. *)
Theorem standardize_publisher_idempotent (publisher : option str) :
  Goodreads.standardize_publisher
    (Some (Goodreads.standardize_publisher publisher))
  = Goodreads.standardize_publisher publisher.
Proof.
  destruct publisher as [p|]; [|vm_compute; reflexivity].
  assert (Hs : Goodreads.standardize_publisher (Some p)
               = match Goodreads.first_match (upper (strip p))
                         Goodreads.uk_publishers with
                 | Some standard_name => standard_name
                 | None => strip p
                 end) by reflexivity.
  rewrite Hs.
  destruct (Goodreads.first_match (upper (strip p)) Goodreads.uk_publishers)
    as [name|] eqn:Hm.
  - apply canonical_name_fixed. exact (first_match_canonical _ _ Hm).
  - unfold Goodreads.standardize_publisher.
    now rewrite !strip_idempotent, Hm.
Qed.

(** X9. The synonym table is searched in order and the first entry with a
    variation inside the trimmed, upper-cased publisher wins: the result
    is that entry's name exactly when no earlier entry has such a
    variation, and it is the trimmed publisher itself exactly when no
    entry has one. *)
Theorem standardize_publisher_first_match (p name : str) :
  (Goodreads.first_match (upper (strip p)) Goodreads.uk_publishers
   = Some name
   <-> exists before variations after,
         Goodreads.uk_publishers = before ++ (name, variations) :: after
         /\ existsb (fun var => contains var (upper (strip p))) variations
            = true
         /\ forall e, In e before ->
              existsb (fun var => contains var (upper (strip p))) (snd e)
              = false)
  /\ (Goodreads.first_match (upper (strip p)) Goodreads.uk_publishers
      = Some name ->
      Goodreads.standardize_publisher (Some p) = name)
  /\ ((forall e, In e Goodreads.uk_publishers ->
         existsb (fun var => contains var (upper (strip p))) (snd e) = false)
      -> Goodreads.standardize_publisher (Some p) = strip p).
Proof.
  split; [apply first_match_split|]. split.
  - intros Hm. unfold Goodreads.standardize_publisher. now rewrite Hm.
  - intros Hn. apply first_match_none in Hn.
    unfold Goodreads.standardize_publisher. now rewrite Hn.
Qed.

Lemma standardize_publisher_first_match_witness :
  Goodreads.first_match (upper (strip (lit " Penguin Random House ")))
    Goodreads.uk_publishers = Some (lit "PENGUIN")
  /\ Goodreads.standardize_publisher (Some (lit " Penguin Random House "))
     = lit "PENGUIN"
  /\ (forall e, In e Goodreads.uk_publishers ->
        existsb (fun var => contains var (upper (strip (lit " Tor Books "))))
                (snd e) = false)
  /\ Goodreads.standardize_publisher (Some (lit " Tor Books "))
     = lit "Tor Books".
Proof.
  split; [reflexivity|]. split.
  - apply (proj1 (proj2 (standardize_publisher_first_match
                           (lit " Penguin Random House ") (lit "PENGUIN")))).
    reflexivity.
  - assert (Hn : forall e, In e Goodreads.uk_publishers ->
        existsb (fun var => contains var (upper (strip (lit " Tor Books "))))
                (snd e) = false).
    { intros e He. unfold Goodreads.uk_publishers in He. simpl in He.
      destruct He as [<- | [<- | [<- | [<- | [<- | [<- | [<- | []]]]]]]];
        reflexivity. }
    split; [exact Hn|].
    apply (proj2 (proj2 (standardize_publisher_first_match
                           (lit " Tor Books ") (lit "Tor Books")))).
    exact Hn.
Defined.

(** ** Sorting and distinct values *)

Section SortedFacts.
Variable A : Type.
Variable leb : A -> A -> bool.
Hypothesis leb_total : forall x y, leb x y = false -> leb y x = true.
Hypothesis leb_trans :
  forall x y z, leb x y = true -> leb y z = true -> leb x z = true.

Lemma insert_sorted_Permutation (x : A) (l : list A) :
  Permutation (x :: l) (insert_sorted leb x l).
Proof.
  induction l as [|y l IH]; simpl; [reflexivity|].
  destruct (leb x y); [reflexivity|].
  rewrite perm_swap. now constructor.
Qed.

Lemma isort_Permutation (l : list A) : Permutation l (isort leb l).
Proof.
  unfold isort. induction l as [|x l IH]; simpl; [reflexivity|].
  rewrite <- insert_sorted_Permutation. now constructor.
Qed.

Lemma insert_sorted_StronglySorted (x : A) (l : list A) :
  StronglySorted (fun a b => leb a b = true) l ->
  StronglySorted (fun a b => leb a b = true) (insert_sorted leb x l).
Proof.
  induction 1 as [|y l Hl IH Hy]; simpl.
  - repeat constructor.
  - destruct (leb x y) eqn:Hxy.
    + constructor; [now constructor|]. constructor; [exact Hxy|].
      rewrite Forall_forall in *. intros z Hz.
      exact (leb_trans _ _ _ Hxy (Hy z Hz)).
    + constructor; [exact IH|]. rewrite Forall_forall in *.
      intros z Hz. apply insert_sorted_In in Hz.
      destruct Hz as [-> | Hz]; [now apply leb_total | now apply Hy].
Qed.

Lemma isort_StronglySorted (l : list A) :
  StronglySorted (fun a b => leb a b = true) (isort leb l).
Proof.
  unfold isort. induction l as [|x l IH]; simpl; [constructor|].
  now apply insert_sorted_StronglySorted.
Qed.

Hypothesis leb_antisym :
  forall x y, leb x y = true -> leb y x = true -> x = y.

Lemma sorted_unique (l1 l2 : list A) :
  StronglySorted (fun a b => leb a b = true) l1 ->
  StronglySorted (fun a b => leb a b = true) l2 ->
  NoDup l1 -> NoDup l2 ->
  (forall x, In x l1 <-> In x l2) ->
  l1 = l2.
Proof.
  intros S1. revert l2. induction S1 as [|x l1 S1 IH Hx]; intros l2 S2 N1 N2 E.
  - destruct l2 as [|y l2]; [reflexivity|].
    exfalso. apply (E y). now left.
  - destruct S2 as [|y l2 S2 Hy].
    + exfalso. apply (E x). now left.
    + rewrite Forall_forall in Hx, Hy.
      inversion N1 as [|? ? Nx N1']; subst.
      inversion N2 as [|? ? Ny N2']; subst.
      assert (Hxy : x = y).
      { destruct (proj1 (E x) (or_introl eq_refl)) as [Heq | Hin];
          [now symmetry|].
        destruct (proj2 (E y) (or_introl eq_refl)) as [Heq | Hin'];
          [exact Heq|].
        apply leb_antisym; [now apply Hx | now apply Hy]. }
      subst y. f_equal. apply IH; try assumption.
      intros z. split; intros Hz.
      * destruct (proj1 (E z) (or_intror Hz)) as [Heq | Hin]; [|exact Hin].
        subst z. contradiction.
      * destruct (proj2 (E z) (or_intror Hz)) as [Heq | Hin]; [|exact Hin].
        subst z. contradiction.
Qed.

End SortedFacts.

Section DistinctFacts.
Variable A : Type.
Variable eqb : A -> A -> bool.
Hypothesis eqb_eq : forall x y, eqb x y = true <-> x = y.

Lemma distinct_In_iff (l : list A) (x : A) :
  In x (distinct eqb l) <-> In x l.
Proof.
  split; [apply distinct_In|].
  induction l as [|y l IH]; simpl; [tauto|].
  intros [-> | Hx]; [now left|].
  destruct (eqb y x) eqn:Hyx.
  - left. now apply eqb_eq.
  - right. apply filter_In. split; [now apply IH|]. now rewrite Hyx.
Qed.

Lemma distinct_NoDup (l : list A) : NoDup (distinct eqb l).
Proof.
  induction l as [|y l IH]; simpl; constructor.
  - intros Hin. apply filter_In in Hin. destruct Hin as [_ Hn].
    rewrite (proj2 (eqb_eq y y) eq_refl) in Hn. discriminate.
  - now apply NoDup_filter.
Qed.

End DistinctFacts.

Section StrOrder.

Lemma str_eqb_eq (a b : str) : str_eqb a b = true <-> a = b.
Proof.
  unfold str_eqb. destruct (list_eq_dec ascii_dec a b); split; congruence.
Qed.

Lemma code_inj (x y : ascii) : code x = code y -> x = y.
Proof.
  unfold code. intros H. rewrite <- (ascii_N_embedding x),
    <- (ascii_N_embedding y). now rewrite H.
Qed.

Lemma str_leb_total (a b : str) :
  BookCrossing.str_leb a b = false -> BookCrossing.str_leb b a = true.
Proof.
  revert b. induction a as [|x a IH]; intros [|y b]; simpl; try congruence.
  rewrite (N.compare_antisym (code x) (code y)).
  destruct (N.compare (code x) (code y)); simpl; try congruence.
  apply IH.
Qed.

Lemma str_leb_antisym (a b : str) :
  BookCrossing.str_leb a b = true -> BookCrossing.str_leb b a = true -> a = b.
Proof.
  revert b. induction a as [|x a IH]; intros [|y b]; simpl; try congruence.
  rewrite (N.compare_antisym (code x) (code y)).
  destruct (N.compare (code x) (code y)) eqn:Hc; simpl; try congruence.
  apply N.compare_eq in Hc. apply code_inj in Hc. subst y.
  intros H1 H2. f_equal. now apply IH.
Qed.

Lemma str_leb_trans (a b c : str) :
  BookCrossing.str_leb a b = true -> BookCrossing.str_leb b c = true ->
  BookCrossing.str_leb a c = true.
Proof.
  revert b c. induction a as [|x a IH]; intros [|y b] [|z c]; simpl;
    try congruence.
  destruct (N.compare_spec (code x) (code y)) as [Hxy | Hxy | Hxy];
    destruct (N.compare_spec (code y) (code z)) as [Hyz | Hyz | Hyz];
    destruct (N.compare_spec (code x) (code z)) as [Hxz | Hxz | Hxz];
    try congruence; try lia.
  apply IH.
Qed.

End StrOrder.

(** ** Ratings and users of the community data *)

Section CommunityFacts.
Import BookCrossing.

Lemma filter_map_In (A B : Type) (f : A -> option B) (l : list A) (y : B) :
  In y (filter_map f l) <-> exists x, In x l /\ f x = Some y.
Proof.
  induction l as [|a l IH]; simpl.
  - split; [tauto|]. intros (x & [] & _).
  - destruct (f a) as [b|] eqn:Hfa; simpl; rewrite IH; split.
    + intros [<- | (x & Hx & Hf)]; [now exists a; auto|].
      exists x. auto.
    + intros (x & [<- | Hx] & Hf); [left; congruence|].
      right. now exists x.
    + intros (x & Hx & Hf). exists x. auto.
    + intros (x & [<- | Hx] & Hf); [congruence|]. now exists x.
Qed.

Lemma sum_ratings_Permutation (l l' : list Z) :
  Permutation l l' -> sum_ratings l = sum_ratings l'.
Proof.
  unfold sum_ratings. induction 1; simpl; lia.
Qed.

Lemma mean_Permutation (l l' : list Z) :
  Permutation l l' -> mean l = mean l'.
Proof.
  intros Hp. unfold mean.
  now rewrite (sum_ratings_Permutation _ _ Hp), (Permutation_length Hp).
Qed.

Lemma filter_Permutation (A : Type) (f : A -> bool) (l l' : list A) :
  Permutation l l' -> Permutation (filter f l) (filter f l').
Proof.
  induction 1 as [|x l l' _ IH|x y l|l l' l'' _ IH1 _ IH2]; simpl.
  - constructor.
  - destruct (f x); [now constructor | exact IH].
  - destruct (f x), (f y); try reflexivity. apply perm_swap.
  - now transitivity (filter f l').
Qed.

Lemma sum_ratings_lower (lo : Z) (l : list Z) :
  (forall x, In x l -> (lo <= x)%Z) ->
  (Z.of_nat (List.length l) * lo <= sum_ratings l)%Z.
Proof.
  unfold sum_ratings. induction l as [|x l IH]; intros Hb.
  - simpl. lia.
  - assert (Hx := Hb x (or_introl eq_refl)).
    assert (Hl := IH (fun y Hy => Hb y (or_intror Hy))).
    change (List.length (x :: l)) with (S (List.length l)).
    rewrite Nat2Z.inj_succ. simpl fold_right. nia.
Qed.

Lemma sum_ratings_upper (hi : Z) (l : list Z) :
  (forall x, In x l -> (x <= hi)%Z) ->
  (sum_ratings l <= Z.of_nat (List.length l) * hi)%Z.
Proof.
  unfold sum_ratings. induction l as [|x l IH]; intros Hb.
  - simpl. lia.
  - assert (Hx := Hb x (or_introl eq_refl)).
    assert (Hl := IH (fun y Hy => Hb y (or_intror Hy))).
    change (List.length (x :: l)) with (S (List.length l)).
    rewrite Nat2Z.inj_succ. simpl fold_right. nia.
Qed.

Lemma length_positive (l : list Z) :
  l <> [] -> (0 < inject_Z (Z.of_nat (List.length l)))%Q.
Proof.
  intros Hne. unfold Qlt, inject_Z. simpl.
  destruct l; [congruence | simpl; lia].
Qed.

Lemma mean_lower (lo : Z) (l : list Z) :
  l <> [] -> (forall x, In x l -> (lo <= x)%Z) ->
  (inject_Z lo <= mean l)%Q.
Proof.
  intros Hne Hb. pose proof (sum_ratings_lower lo l Hb) as Hs.
  unfold mean. apply Qle_shift_div_l; [now apply length_positive|].
  unfold Qle, Qmult, inject_Z. simpl. lia.
Qed.

Lemma mean_upper (hi : Z) (l : list Z) :
  l <> [] -> (forall x, In x l -> (x <= hi)%Z) ->
  (mean l <= inject_Z hi)%Q.
Proof.
  intros Hne Hb. pose proof (sum_ratings_upper hi l Hb) as Hs.
  unfold mean. apply Qle_shift_div_r; [now apply length_positive|].
  unfold Qle, Qmult, inject_Z. simpl. lia.
Qed.

Lemma bc_ratings_clean_In (bc_ratings : list Ratings.Row) (c : CleanRating) :
  In c (bc_ratings_clean bc_ratings)
  <-> exists r,
        In r bc_ratings
        /\ (0 < Ratings.Book_Rating r)%Z
        /\ clean_isbn (Ratings.ISBN r) = Some (cr_isbn_clean c)
        /\ cr_user c = Ratings.User_ID r
        /\ cr_rating c = Ratings.Book_Rating r.
Proof.
  unfold bc_ratings_clean, bc_ratings_explicit.
  rewrite filter_map_In. split.
  - intros (r & Hr & Hc). apply filter_In in Hr. destruct Hr as [Hr Hpos].
    apply Z.ltb_lt in Hpos. exists r.
    unfold add_isbn_clean in Hc.
    destruct (clean_isbn (Ratings.ISBN r)) as [i|]; [|discriminate].
    injection Hc as <-. simpl. tauto.
  - intros (r & Hr & Hpos & Hi & Hu & Hv). exists r. split.
    + apply filter_In. split; [exact Hr|]. now apply Z.ltb_lt.
    + unfold add_isbn_clean. rewrite Hi.
      destruct c as [cu ci cv]. simpl in *. now subst.
Qed.

End CommunityFacts.

(** X10. A cleaned user has a null age or an age between 10 and 100.
    With a null age the age group is "Unknown"; otherwise it is fixed by
    half-open intervals: below 26 (from 10 on) "18-25", from 26 "26-35",
    from 36 "36-50", from 51 "51-65", from 66 "66+". *)
Theorem age_group_of_cleaned_user
  (P : NumericParser) (u : BookCrossing.Users.Row) :
  let cu := BookCrossing.clean_user u in
  (BookCrossing.cu_age cu = None ->
   BookCrossing.cu_age_group cu = lit "Unknown")
  /\ (forall a,
        BookCrossing.cu_age cu = Some a ->
        (10 <= a)%Q /\ (a <= 100)%Q
        /\ (((a < 26)%Q /\ BookCrossing.cu_age_group cu = lit "18-25")
            \/ ((26 <= a)%Q /\ (a < 36)%Q
                /\ BookCrossing.cu_age_group cu = lit "26-35")
            \/ ((36 <= a)%Q /\ (a < 51)%Q
                /\ BookCrossing.cu_age_group cu = lit "36-50")
            \/ ((51 <= a)%Q /\ (a < 66)%Q
                /\ BookCrossing.cu_age_group cu = lit "51-65")
            \/ ((66 <= a)%Q
                /\ BookCrossing.cu_age_group cu = lit "66+"))).
Proof.
  intros cu. unfold cu, BookCrossing.clean_user. simpl. split.
  - intros ->. reflexivity.
  - intros a Ha. rewrite Ha.
    unfold BookCrossing.clean_age in Ha. cbv zeta in Ha.
    unfold Goodreads.lt_const, Goodreads.gt_const in Ha.
    destruct (to_numeric (BookCrossing.Users.Age u)) as [q|]; [|discriminate].
    destruct (Qle_bool 10 q) eqn:H10; simpl in Ha; [|discriminate].
    destruct (Qle_bool q 100) eqn:H100; simpl in Ha; [|discriminate].
    injection Ha as <-. apply Qle_bool_iff in H10, H100.
    split; [exact H10|]. split; [exact H100|].
    unfold BookCrossing.categorize_age.
    destruct (Qle_bool 26 q) eqn:H26; simpl;
      [|left; split; [now apply Qle_bool_true_or_lt | reflexivity]].
    apply Qle_bool_iff in H26. right.
    destruct (Qle_bool 36 q) eqn:H36; simpl;
      [|left; repeat split;
        [exact H26 | now apply Qle_bool_true_or_lt]].
    apply Qle_bool_iff in H36. right.
    destruct (Qle_bool 51 q) eqn:H51; simpl;
      [|left; repeat split;
        [exact H36 | now apply Qle_bool_true_or_lt]].
    apply Qle_bool_iff in H51. right.
    destruct (Qle_bool 66 q) eqn:H66; simpl;
      [|left; repeat split;
        [exact H51 | now apply Qle_bool_true_or_lt]].
    apply Qle_bool_iff in H66. right. split; [exact H66 | reflexivity].
Qed.

Lemma age_group_of_cleaned_user_witness :
  let child := {| BookCrossing.Users.User_ID := 8%Z;
                  BookCrossing.Users.Location := Some (lit "leeds, england, uk");
                  BookCrossing.Users.Age := CStr (lit "12") |} in
  let old := {| BookCrossing.Users.User_ID := 9%Z;
                BookCrossing.Users.Location := None;
                BookCrossing.Users.Age := CStr (lit "140") |} in
  (BookCrossing.cu_age (@BookCrossing.clean_user Decimal.parser child)
   = Some 12%Q
   /\ BookCrossing.cu_age_group (@BookCrossing.clean_user Decimal.parser child)
      = lit "18-25"
   /\ (10 <= 12)%Q /\ (12 <= 100)%Q)
  /\ (BookCrossing.cu_age (@BookCrossing.clean_user Decimal.parser old) = None
      /\ BookCrossing.cu_age_group
           (@BookCrossing.clean_user Decimal.parser old)
         = lit "Unknown").
Proof.
  intros child old. split.
  - split; [reflexivity|]. split; [reflexivity|].
    pose proof (proj2 (age_group_of_cleaned_user Decimal.parser child)
                  12%Q eq_refl) as H.
    tauto.
  - split; [reflexivity|].
    apply (proj1 (age_group_of_cleaned_user Decimal.parser old)).
    reflexivity.
Defined.

(** X11. The cleaned ratings are exactly the raw ratings with a rating
    above 0 and an identifier that normalizes, each with its normalized
    identifier; so every cleaned rating is at least 1 and carries a valid
    identifier. *)
Theorem cleaned_ratings_explicit_and_valid
  (bc_ratings : list BookCrossing.Ratings.Row) (c : BookCrossing.CleanRating) :
  (In c (BookCrossing.bc_ratings_clean bc_ratings)
   <-> exists r,
         In r bc_ratings
         /\ (0 < BookCrossing.Ratings.Book_Rating r)%Z
         /\ BookCrossing.clean_isbn (BookCrossing.Ratings.ISBN r)
            = Some (BookCrossing.cr_isbn_clean c)
         /\ BookCrossing.cr_user c = BookCrossing.Ratings.User_ID r
         /\ BookCrossing.cr_rating c = BookCrossing.Ratings.Book_Rating r)
  /\ (In c (BookCrossing.bc_ratings_clean bc_ratings) ->
      (1 <= BookCrossing.cr_rating c)%Z
      /\ valid_identifier (BookCrossing.cr_isbn_clean c)).
Proof.
  pose proof (bc_ratings_clean_In bc_ratings c) as Hiff.
  split; [exact Hiff|]. intros Hc. apply Hiff in Hc.
  destruct Hc as (r & _ & Hpos & Hi & _ & Hv). split; [lia|].
  rewrite clean_isbn_same in Hi. exact (clean_isbn_valid _ _ Hi).
Qed.

Lemma cleaned_ratings_explicit_and_valid_witness :
  let raw := [ {| BookCrossing.Ratings.User_ID := 1%Z;
                  BookCrossing.Ratings.ISBN := Some (lit "0-439-70818-x");
                  BookCrossing.Ratings.Book_Rating := 9%Z |};
               {| BookCrossing.Ratings.User_ID := 2%Z;
                  BookCrossing.Ratings.ISBN := Some (lit "0439708184");
                  BookCrossing.Ratings.Book_Rating := 0%Z |};
               {| BookCrossing.Ratings.User_ID := 3%Z;
                  BookCrossing.Ratings.ISBN := Some (lit "12345");
                  BookCrossing.Ratings.Book_Rating := 7%Z |} ] in
  let c := {| BookCrossing.cr_user := 1%Z;
              BookCrossing.cr_isbn_clean := lit "043970818X";
              BookCrossing.cr_rating := 9%Z |} in
  BookCrossing.bc_ratings_clean raw = [c]
  /\ In c (BookCrossing.bc_ratings_clean raw)
  /\ (1 <= BookCrossing.cr_rating c)%Z
  /\ valid_identifier (BookCrossing.cr_isbn_clean c).
Proof.
  intros raw c.
  assert (Hc : In c (BookCrossing.bc_ratings_clean raw))
    by (left; reflexivity).
  split; [reflexivity|]. split; [exact Hc|].
  apply (proj2 (cleaned_ratings_explicit_and_valid raw c) Hc).
Defined.

(** ** Rating aggregates *)

Section AggregateFacts.
Import BookCrossing.

Lemma aggregate_keys (rows : list CleanRating) :
  map a_isbn (bc_aggregated rows)
  = isort str_leb (distinct str_eqb (map cr_isbn_clean rows)).
Proof.
  unfold bc_aggregated. rewrite map_map. simpl. apply map_id.
Qed.

Lemma bc_aggregated_In (rows : list CleanRating) (a : Aggregate) :
  In a (bc_aggregated rows)
  <-> In (a_isbn a) (map cr_isbn_clean rows)
      /\ a = aggregate_of rows (a_isbn a).
Proof.
  unfold bc_aggregated. rewrite in_map_iff. split.
  - intros (k & <- & Hk). simpl.
    rewrite isort_In, (distinct_In_iff str str_eqb str_eqb_eq) in Hk.
    split; [exact Hk | reflexivity].
  - intros [Hk Ha]. exists (a_isbn a). split; [now symmetry|].
    rewrite isort_In, (distinct_In_iff str str_eqb str_eqb_eq). exact Hk.
Qed.

Lemma group_ratings_nonempty (rows : list CleanRating) (k : str) :
  In k (map cr_isbn_clean rows) -> group_ratings rows k <> [].
Proof.
  intros Hk. apply in_map_iff in Hk. destruct Hk as (r & <- & Hr).
  unfold group_ratings. intros Hnil.
  assert (Hin : In (cr_rating r)
                  (map cr_rating
                     (filter (fun r' => str_eqb (cr_isbn_clean r')
                                                (cr_isbn_clean r)) rows))).
  { apply in_map, filter_In. split; [exact Hr|]. now apply str_eqb_eq. }
  rewrite Hnil in Hin. destruct Hin.
Qed.

Lemma group_ratings_Permutation (rows rows' : list CleanRating) (k : str) :
  Permutation rows rows' ->
  Permutation (group_ratings rows k) (group_ratings rows' k).
Proof.
  intros Hp. unfold group_ratings.
  now apply Permutation_map, filter_Permutation.
Qed.

End AggregateFacts.

(** X12. The rating aggregates have one row for each distinct identifier
    of the cleaned ratings, in the order of the identifiers; a row's count
    is the number of cleaned ratings with its identifier, which is at
    least 1, its mean is their sum divided by that count, and its
    normalized rating is half the mean.  The filtered aggregates are the
    rows with a count of at least 10. *)
Theorem aggregates_one_row_per_identifier
  (rows : list BookCrossing.CleanRating) :
  NoDup (map BookCrossing.a_isbn (BookCrossing.bc_aggregated rows))
  /\ StronglySorted (fun x y => BookCrossing.str_leb x y = true)
       (map BookCrossing.a_isbn (BookCrossing.bc_aggregated rows))
  /\ (forall k,
        In k (map BookCrossing.a_isbn (BookCrossing.bc_aggregated rows))
        <-> In k (map BookCrossing.cr_isbn_clean rows))
  /\ (forall a,
        In a (BookCrossing.bc_aggregated rows) ->
        BookCrossing.a_bc_rating_count a
        = List.length (group_ratings rows (BookCrossing.a_isbn a))
        /\ 1 <= BookCrossing.a_bc_rating_count a
        /\ BookCrossing.a_bc_rating_avg a
           = (inject_Z (BookCrossing.sum_ratings
                          (group_ratings rows (BookCrossing.a_isbn a)))
              / inject_Z (Z.of_nat (BookCrossing.a_bc_rating_count a)))%Q
        /\ BookCrossing.a_bc_rating_normalized a
           = (BookCrossing.a_bc_rating_avg a / 2)%Q)
  /\ (forall a,
        In a (BookCrossing.bc_aggregated_filtered rows)
        <-> In a (BookCrossing.bc_aggregated rows)
            /\ 10 <= BookCrossing.a_bc_rating_count a).
Proof.
  rewrite aggregate_keys. split; [|split; [|split; [|split]]].
  - eapply Permutation_NoDup; [apply isort_Permutation|].
    apply distinct_NoDup, str_eqb_eq.
  - apply isort_StronglySorted; [apply str_leb_total | apply str_leb_trans].
  - intros k. rewrite isort_In. apply distinct_In_iff, str_eqb_eq.
  - intros a Ha. apply bc_aggregated_In in Ha. destruct Ha as [Hk ->].
    simpl. fold (group_ratings rows (BookCrossing.a_isbn a)).
    pose proof (group_ratings_nonempty rows _ Hk) as Hne.
    split; [reflexivity|]. split; [|split; reflexivity].
    destruct (group_ratings rows (BookCrossing.a_isbn a));
      [congruence | simpl; lia].
  - intros a. unfold BookCrossing.bc_aggregated_filtered.
    rewrite filter_In, Nat.leb_le. tauto.
Qed.

Lemma aggregates_one_row_per_identifier_witness :
  let rows := sample_ratings [1; 2; 3]%Z in
  let a := {| BookCrossing.a_isbn := lit "0439708184";
              BookCrossing.a_bc_rating_avg := (27 # 3)%Q;
              BookCrossing.a_bc_rating_count := 3;
              BookCrossing.a_bc_rating_normalized := (27 # 6)%Q |} in
  In a (BookCrossing.bc_aggregated rows)
  /\ BookCrossing.bc_aggregated_filtered rows = []
  /\ BookCrossing.a_bc_rating_count a
     = List.length (group_ratings rows (BookCrossing.a_isbn a))
  /\ 1 <= BookCrossing.a_bc_rating_count a.
Proof.
  intros rows a.
  assert (Ha : In a (BookCrossing.bc_aggregated rows)) by (left; reflexivity).
  split; [exact Ha|]. split; [reflexivity|].
  pose proof (proj1 (proj2 (proj2 (proj2
                 (aggregates_one_row_per_identifier rows)))) a Ha) as H.
  tauto.
Defined.

(** X13. Every rating aggregate made from the raw ratings has a mean of
    at least 1 and a normalized rating of at least 1/2; when no raw rating
    is above 10, the mean is at most 10 and the normalized rating at most
    5. *)
Theorem aggregate_mean_bounds
  (bc_ratings : list BookCrossing.Ratings.Row) (a : BookCrossing.Aggregate) :
  In a (BookCrossing.bc_aggregated (BookCrossing.bc_ratings_clean bc_ratings))
  ->
  ((1 <= BookCrossing.a_bc_rating_avg a)%Q
   /\ ((1 # 2) <= BookCrossing.a_bc_rating_normalized a)%Q)
  /\ ((forall r, In r bc_ratings ->
                 (BookCrossing.Ratings.Book_Rating r <= 10)%Z) ->
      (BookCrossing.a_bc_rating_avg a <= 10)%Q
      /\ (BookCrossing.a_bc_rating_normalized a <= 5)%Q).
Proof.
  intros Ha. apply bc_aggregated_In in Ha. destruct Ha as [Hk ->].
  set (rows := BookCrossing.bc_ratings_clean bc_ratings) in *.
  simpl in Hk. simpl.
  set (k := BookCrossing.a_isbn a) in *.
  fold (group_ratings rows k).
  pose proof (group_ratings_nonempty rows k Hk) as Hne.
  assert (Hraw : forall x, In x (group_ratings rows k) ->
            exists r, In r bc_ratings
                      /\ (0 < BookCrossing.Ratings.Book_Rating r)%Z
                      /\ x = BookCrossing.Ratings.Book_Rating r).
  { intros x Hx. unfold group_ratings in Hx. apply in_map_iff in Hx.
    destruct Hx as (c & <- & Hc). apply filter_In in Hc.
    destruct Hc as [Hc _]. apply bc_ratings_clean_In in Hc.
    destruct Hc as (r & Hr & Hpos & _ & _ & Hv). now exists r. }
  split.
  - assert (H1 : (inject_Z 1 <= BookCrossing.mean (group_ratings rows k))%Q).
    { apply mean_lower; [exact Hne|]. intros x Hx.
      destruct (Hraw x Hx) as (r & _ & Hpos & ->). lia. }
    change (inject_Z 1) with 1%Q in H1. split; [exact H1|].
    apply Qle_shift_div_l; [reflexivity|].
    assert (Hc : ((1 # 2) * 2 == 1)%Q) by reflexivity.
    now rewrite Hc.
  - intros Hmax.
    assert (H10 : (BookCrossing.mean (group_ratings rows k) <= inject_Z 10)%Q).
    { apply mean_upper; [exact Hne|]. intros x Hx.
      destruct (Hraw x Hx) as (r & Hr & _ & ->). now apply Hmax. }
    change (inject_Z 10) with 10%Q in H10. split; [exact H10|].
    apply Qle_shift_div_r; [reflexivity|].
    assert (Hc : (5 * 2 == 10)%Q) by reflexivity.
    now rewrite Hc.
Qed.

Lemma aggregate_mean_bounds_witness :
  let raw := map (fun v => {| BookCrossing.Ratings.User_ID := v;
                              BookCrossing.Ratings.ISBN :=
                                Some (lit "0439708184");
                              BookCrossing.Ratings.Book_Rating := v |})
                 [9; 10; 0; 8]%Z in
  let a := {| BookCrossing.a_isbn := lit "0439708184";
              BookCrossing.a_bc_rating_avg := (27 # 3)%Q;
              BookCrossing.a_bc_rating_count := 3;
              BookCrossing.a_bc_rating_normalized := (27 # 6)%Q |} in
  In a (BookCrossing.bc_aggregated (BookCrossing.bc_ratings_clean raw))
  /\ (forall r, In r raw -> (BookCrossing.Ratings.Book_Rating r <= 10)%Z)
  /\ (1 <= BookCrossing.a_bc_rating_avg a)%Q
  /\ (BookCrossing.a_bc_rating_avg a <= 10)%Q
  /\ (BookCrossing.a_bc_rating_normalized a <= 5)%Q.
Proof.
  intros raw a.
  assert (Ha : In a (BookCrossing.bc_aggregated
                       (BookCrossing.bc_ratings_clean raw)))
    by (left; reflexivity).
  assert (Hmax : forall r, In r raw ->
                           (BookCrossing.Ratings.Book_Rating r <= 10)%Z).
  { intros r Hr. simpl in Hr.
    destruct Hr as [<- | [<- | [<- | [<- | []]]]]; simpl; lia. }
  split; [exact Ha|]. split; [exact Hmax|].
  pose proof (aggregate_mean_bounds raw a Ha) as [[Hlo _] Hhi].
  destruct (Hhi Hmax) as [H10 H5]. tauto.
Defined.

(** X14. The rating aggregates do not depend on the order of the cleaned
    ratings: any rearrangement of the ratings gives the same rows (mean,
    count and normalized rating), in the same order. *)
Theorem aggregates_order_independent
  (rows rows' : list BookCrossing.CleanRating) :
  Permutation rows rows' ->
  BookCrossing.bc_aggregated rows = BookCrossing.bc_aggregated rows'
  /\ BookCrossing.bc_aggregated_filtered rows
     = BookCrossing.bc_aggregated_filtered rows'.
Proof.
  intros Hp.
  assert (Hagg : BookCrossing.bc_aggregated rows
                 = BookCrossing.bc_aggregated rows').
  { unfold BookCrossing.bc_aggregated.
    assert (Hkeys :
      isort BookCrossing.str_leb
        (distinct str_eqb (map BookCrossing.cr_isbn_clean rows))
      = isort BookCrossing.str_leb
          (distinct str_eqb (map BookCrossing.cr_isbn_clean rows'))).
    { apply sorted_unique with (leb := BookCrossing.str_leb).
      - apply str_leb_antisym.
      - apply isort_StronglySorted;
          [apply str_leb_total | apply str_leb_trans].
      - apply isort_StronglySorted;
          [apply str_leb_total | apply str_leb_trans].
      - eapply Permutation_NoDup; [apply isort_Permutation|].
        apply distinct_NoDup, str_eqb_eq.
      - eapply Permutation_NoDup; [apply isort_Permutation|].
        apply distinct_NoDup, str_eqb_eq.
      - intros k.
        rewrite !isort_In, !(distinct_In_iff str str_eqb str_eqb_eq).
        split; apply Permutation_in, Permutation_map;
          [exact Hp | now symmetry]. }
    rewrite Hkeys. apply map_ext. intros k.
    unfold BookCrossing.aggregate_of. cbv zeta.
    fold (group_ratings rows k). fold (group_ratings rows' k).
    pose proof (group_ratings_Permutation rows rows' k Hp) as Hg.
    now rewrite (mean_Permutation _ _ Hg), (Permutation_length Hg). }
  split; [exact Hagg|].
  unfold BookCrossing.bc_aggregated_filtered. now rewrite Hagg.
Qed.

Lemma aggregates_order_independent_witness :
  let r1 := {| BookCrossing.cr_user := 1%Z;
               BookCrossing.cr_isbn_clean := lit "0439708184";
               BookCrossing.cr_rating := 9%Z |} in
  let r2 := {| BookCrossing.cr_user := 2%Z;
               BookCrossing.cr_isbn_clean := lit "0141439583";
               BookCrossing.cr_rating := 4%Z |} in
  Permutation [r1; r2] [r2; r1]
  /\ BookCrossing.bc_aggregated [r1; r2] = BookCrossing.bc_aggregated [r2; r1]
  /\ map BookCrossing.a_isbn (BookCrossing.bc_aggregated [r1; r2])
     = [lit "0141439583"; lit "0439708184"].
Proof.
  intros r1 r2. split; [apply perm_swap|]. split; [|reflexivity].
  apply (aggregates_order_independent [r1; r2] [r2; r1]). apply perm_swap.
Defined.

(** ** Ratings with demographics *)

Section MergeFacts.
Import BookCrossing.

Lemma matching_users_unique (users : list CleanUser) (r : CleanRating) :
  NoDup (map cu_user users) -> List.length (matching_users users r) <= 1.
Proof.
  unfold matching_users. induction users as [|u users IH]; simpl; [lia|].
  intros Hn. inversion Hn as [|? ? Hu Hn']; subst.
  destruct (Z.eqb_spec (cu_user u) (cr_user r)) as [Heq | Hne].
  - assert (Hnil : filter (fun u' => Z.eqb (cu_user u') (cr_user r)) users
                   = []).
    { destruct (filter _ users) as [|v vs] eqn:Hf; [reflexivity|].
      exfalso. apply Hu.
      assert (Hv : In v (filter (fun u' => Z.eqb (cu_user u') (cr_user r))
                                users))
        by (rewrite Hf; now left).
      apply filter_In in Hv. destruct Hv as [Hv Hid].
      apply Z.eqb_eq in Hid. rewrite Heq, <- Hid. now apply in_map. }
    rewrite Hnil. simpl. lia.
  - now apply IH.
Qed.

Lemma merge_left_In (ratings : list CleanRating) (users : list CleanUser)
  (m : RatingWithUser) :
  In m (merge_left ratings users)
  <-> exists r, In r ratings
                /\ ((matching_users users r = [] /\ m = merge_row r None)
                    \/ exists u, In u users /\ cu_user u = cr_user r
                                 /\ m = merge_row r (Some u)).
Proof.
  unfold merge_left. rewrite in_flat_map. split.
  - intros (r & Hr & Hm). exists r. split; [exact Hr|].
    destruct (matching_users users r) as [|u0 us] eqn:Hmu.
    + left. destruct Hm as [<- | []]. tauto.
    + right. apply in_map_iff in Hm. destruct Hm as (u & <- & Hu).
      rewrite <- Hmu in Hu. apply filter_In in Hu. destruct Hu as [Hu Hid].
      apply Z.eqb_eq in Hid. now exists u.
  - intros (r & Hr & [[Hnil ->] | (u & Hu & Hid & ->)]); exists r;
      (split; [exact Hr|]).
    + rewrite Hnil. now left.
    + assert (Hin : In u (matching_users users r)).
      { apply filter_In. split; [exact Hu|]. now apply Z.eqb_eq. }
      destruct (matching_users users r) as [|u0 us]; [destruct Hin|].
      apply in_map_iff. now exists u.
Qed.

End MergeFacts.

(** X15. The left merge of the ratings with the users never loses a
    rating; a merged row has a null age group exactly when no user has the
    rating's id; and when the user ids are unique, the merge has exactly
    one row per rating, in the order of the ratings. *)
Theorem merge_left_keeps_every_rating
  (ratings : list BookCrossing.CleanRating)
  (users : list BookCrossing.CleanUser) :
  List.length ratings
  <= List.length (BookCrossing.merge_left ratings users)
  /\ (forall m,
        In m (BookCrossing.merge_left ratings users) ->
        (BookCrossing.m_age_group m = None
         <-> forall u, In u users ->
                       BookCrossing.cu_user u <> BookCrossing.m_user m))
  /\ (NoDup (map BookCrossing.cu_user users) ->
      map (fun m => (BookCrossing.m_user m, BookCrossing.m_isbn_clean m,
                     BookCrossing.m_rating m))
          (BookCrossing.merge_left ratings users)
      = map (fun r => (BookCrossing.cr_user r, BookCrossing.cr_isbn_clean r,
                       BookCrossing.cr_rating r))
            ratings).
Proof.
  split; [|split].
  - induction ratings as [|r rs IH]; [simpl; lia|].
    rewrite merge_left_cons, length_app.
    destruct (BookCrossing.matching_users users r); simpl in *; lia.
  - intros m Hm. apply merge_left_In in Hm.
    destruct Hm as (r & _ & [[Hnil ->] | (u & Hu & Hid & ->)]); simpl.
    + split; [|reflexivity]. intros _ u Hu Hid.
      assert (Hin : In u (BookCrossing.matching_users users r)).
      { apply filter_In. split; [exact Hu|]. now apply Z.eqb_eq. }
      rewrite Hnil in Hin. destruct Hin.
    + split; [discriminate|]. intros Hall. exfalso. exact (Hall u Hu Hid).
  - intros Hn. induction ratings as [|r rs IH]; [reflexivity|].
    rewrite merge_left_cons, map_app, IH. simpl.
    pose proof (matching_users_unique users r Hn) as Hlen.
    destruct (BookCrossing.matching_users users r) as [|u [|u' us]];
      simpl in *; try lia; reflexivity.
Qed.

Lemma merge_left_keeps_every_rating_witness :
  let ratings := sample_ratings [6; 7]%Z in
  let users := [sample_user 7; sample_user 8] in
  NoDup (map BookCrossing.cu_user users)
  /\ map (fun m => (BookCrossing.m_user m, BookCrossing.m_isbn_clean m,
                    BookCrossing.m_rating m))
         (BookCrossing.merge_left ratings users)
     = map (fun r => (BookCrossing.cr_user r, BookCrossing.cr_isbn_clean r,
                      BookCrossing.cr_rating r))
           ratings
  /\ map BookCrossing.m_age_group (BookCrossing.merge_left ratings users)
     = [None; Some (lit "26-35")].
Proof.
  intros ratings users.
  assert (Hn : NoDup (map BookCrossing.cu_user users)).
  { simpl. constructor; [simpl; intros [H | []]; discriminate|].
    constructor; [intros []|constructor]. }
  split; [exact Hn|]. split; [|reflexivity].
  apply (proj2 (proj2 (merge_left_keeps_every_rating ratings users)) Hn).
Defined.

(** ** More on the join *)

Section MoreJoinFacts.
Import Database.

Lemma desc_before_order (x y : Master.Row) :
  desc_before x y = true
  <-> score_order (Master.engagement_score x) (Master.engagement_score y).
Proof.
  unfold desc_before, score_order.
  destruct (Master.engagement_score x) as [a|],
           (Master.engagement_score y) as [b|]; try tauto.
  - destruct (Rle_dec b a); split; congruence.
  - split; [discriminate | tauto].
Qed.

Lemma desc_before_total (x y : Master.Row) :
  desc_before x y = false -> desc_before y x = true.
Proof.
  unfold desc_before.
  destruct (Master.engagement_score x) as [a|],
           (Master.engagement_score y) as [b|]; try congruence.
  destruct (Rle_dec b a), (Rle_dec a b); try congruence. lra.
Qed.

Lemma desc_before_trans (x y z : Master.Row) :
  desc_before x y = true -> desc_before y z = true -> desc_before x z = true.
Proof.
  unfold desc_before.
  destruct (Master.engagement_score x) as [a|],
           (Master.engagement_score y) as [b|],
           (Master.engagement_score z) as [c|]; try congruence.
  destruct (Rle_dec b a), (Rle_dec c b), (Rle_dec c a); try congruence. lra.
Qed.

Lemma StronglySorted_impl (A : Type) (R1 R2 : A -> A -> Prop) (l : list A) :
  (forall x y, R1 x y -> R2 x y) ->
  StronglySorted R1 l -> StronglySorted R2 l.
Proof.
  intros Himp. induction 1 as [|x l _ IH Hx]; constructor; [exact IH|].
  rewrite Forall_forall in *. intros y Hy. apply Himp. now apply Hx.
Qed.

Lemma appears_iff (books : list Book) (community : list CommunityRating)
  (b : Book) :
  (exists c, In (select b c) (sql_query books community))
  <-> In b books
      /\ (is_uk_publisher b = true
          \/ exists r, In (b, Some r) (left_join books community)).
Proof.
  split.
  - intros (c & Hrow). apply sql_query_In in Hrow.
    destruct Hrow as (b' & c' & Hin & Hw & Heq).
    apply select_book in Heq. subst b'.
    split; [apply left_join_In in Hin; tauto|].
    apply where_clause_true in Hw.
    destruct Hw as [Hflag | (r & -> & _)]; [now left|].
    right. now exists r.
  - intros [Hb [Hflag | (r & Hr)]].
    + destruct (left_join_covers books community b Hb) as (c & Hc).
      exists c. apply sql_query_In. exists b, c.
      split; [exact Hc|]. split; [|reflexivity].
      apply where_clause_true. now left.
    + exists (Some r). apply sql_query_In. exists b, (Some r).
      split; [exact Hr|]. split; [|reflexivity].
      apply where_clause_true. right. exists r. split; [reflexivity|].
      apply left_join_In in Hr. destruct Hr as (_ & _ & Hon).
      apply on_isbn_true in Hon. destruct Hon as (k & _ & Hk). congruence.
Qed.

Lemma left_join_cons (b : Book) (bs : list Book)
  (community : list CommunityRating) :
  left_join (b :: bs) community
  = match filter (on_isbn b) community with
    | [] => [(b, None)]
    | cs => map (fun c => (b, Some c)) cs
    end ++ left_join bs community.
Proof. reflexivity. Qed.

Lemma matches_unique (community : list CommunityRating) (b : Book) :
  NoDup (filter_map c_isbn community) ->
  List.length (filter (on_isbn b) community) <= 1.
Proof.
  induction community as [|c cs IH]; simpl; [lia|].
  destruct (on_isbn b c) eqn:Hon.
  - apply on_isbn_true in Hon. destruct Hon as (k & Hb & Hc).
    rewrite Hc. intros Hn. inversion Hn as [|? ? Hk Hn']; subst.
    assert (Hnil : filter (on_isbn b) cs = []).
    { destruct (filter (on_isbn b) cs) as [|c' l] eqn:Hf; [reflexivity|].
      exfalso. apply Hk.
      assert (Hc' : In c' (filter (on_isbn b) cs)) by (rewrite Hf; now left).
      apply filter_In in Hc'. destruct Hc' as [Hin Hon'].
      apply on_isbn_true in Hon'. destruct Hon' as (k' & Hb' & Hc'').
      apply filter_map_In. exists c'. split; [exact Hin|]. congruence. }
    rewrite Hnil. simpl. lia.
  - destruct (c_isbn c); intros Hn; [inversion Hn; subst|]; now apply IH.
Qed.

Lemma existsb_filter_nil (A : Type) (f : A -> bool) (l : list A) :
  existsb f l = false <-> filter f l = [].
Proof.
  induction l as [|x l IH]; simpl; [tauto|].
  destruct (f x); simpl; [split; discriminate | exact IH].
Qed.

Lemma book_category_hidden_gem (mean : option Q) (count : option Z) :
  book_category mean count = lit "Hidden Gem"
  <-> exists m n, mean = Some m /\ count = Some n
                  /\ Qle_bool 4 m = true /\ Z.ltb n 500 = true.
Proof.
  unfold book_category, holds, sql_and, sql_ge_real, sql_lt_real, sql_ge_int,
    sql_lt_int, option_map.
  destruct mean as [m|], count as [n|];
    repeat match goal with
           | |- context [Qle_bool ?a ?b] => destruct (Qle_bool a b) eqn:?
           | |- context [Z.ltb ?a ?b] => destruct (Z.ltb a b) eqn:?
           | |- context [Z.leb ?a ?b] => destruct (Z.leb a b) eqn:?
           end;
    (split;
     [ intros H;
       first [ exfalso; vm_compute in H; discriminate H
             | eexists _, _; repeat split; (reflexivity || assumption) ]
     | intros (m' & n' & Hm & Hc & Hq & Hl);
       first [ reflexivity | congruence ] ]).
Qed.

End MoreJoinFacts.

(** X16. For every row of the join, the rating gap is the community rating
    minus the catalog rating when both are there, and it is null exactly
    when one of the two is null. *)
Theorem rating_gap_of_joined_rows
  (books : list Book) (community : list CommunityRating)
  (row : Database.Master.Row) :
  In row (Database.sql_query books community) ->
  (forall m r,
      Database.Master.bc_rating row = Some m ->
      Database.Master.goodreads_rating row = Some r ->
      Database.Master.rating_gap row = Some (m - r)%Q)
  /\ (Database.Master.rating_gap row = None
      <-> Database.Master.bc_rating row = None
          \/ Database.Master.goodreads_rating row = None).
Proof.
  intros Hrow. apply sql_query_In in Hrow.
  destruct Hrow as (b & c & _ & _ & ->). simpl.
  destruct (Database.c_col bc_rating_normalized c) as [m|],
           (goodreads_rating b) as [r|]; simpl; split;
    try (intros m' r' Hm Hr; congruence);
    try (split; [intros; tauto | reflexivity]).
  split; [discriminate|]. intros [Hf | Hf]; discriminate.
Qed.

Lemma rating_gap_of_joined_rows_witness :
  let b := sample_book false (Some 4%Q) (Some 120%Z) in
  let c := sample_aggregate 4.5%Q in
  let row := Database.select b (Some c) in
  In row (Database.sql_query [b] [c])
  /\ Database.Master.bc_rating row = Some 4.5%Q
  /\ Database.Master.goodreads_rating row = Some 4%Q
  /\ Database.Master.rating_gap row = Some (4.5 - 4)%Q.
Proof.
  intros b c row.
  assert (Hin : In row (Database.sql_query [b] [c])) by (left; reflexivity).
  split; [exact Hin|]. split; [reflexivity|]. split; [reflexivity|].
  apply (proj1 (rating_gap_of_joined_rows [b] [c] row Hin)); reflexivity.
Defined.

(** X17. The rows of the join come in descending order of the engagement
    score: of any two rows, the earlier has a score at least as large as
    the later, and the rows with a null score come last. *)
Theorem join_sorted_by_engagement
  (books : list Book) (community : list CommunityRating) :
  StronglySorted
    (fun x y => score_order (Database.Master.engagement_score x)
                            (Database.Master.engagement_score y))
    (Database.sql_query books community).
Proof.
  unfold Database.sql_query.
  eapply StronglySorted_impl;
    [|apply isort_StronglySorted;
      [apply desc_before_total | apply desc_before_trans]].
  intros x y Hxy. now apply desc_before_order.
Qed.

(** X18. When no two aggregate rows have the same identifier, the join
    has at most one row per catalog row: its number of rows is the number
    of catalog rows that are flagged or have an aggregate with their
    identifier. *)
Theorem join_one_row_per_book
  (books : list Book) (community : list CommunityRating) :
  NoDup (filter_map c_isbn community) ->
  List.length (Database.sql_query books community)
  = List.length (filter (retained community) books)
  /\ List.length (Database.sql_query books community) <= List.length books.
Proof.
  intros Hn.
  assert (Hlen : List.length (Database.sql_query books community)
                 = List.length (filter (retained community) books)).
  { unfold Database.sql_query.
    rewrite <- (Permutation_length (isort_Permutation _ _ _)), length_map.
    induction books as [|b bs IH]; [reflexivity|].
    rewrite left_join_cons, filter_app, length_app, IH.
    change (filter (retained community) (b :: bs))
      with (if retained community b
            then b :: filter (retained community) bs
            else filter (retained community) bs).
    assert (Hr : retained community b
                 = (is_uk_publisher b
                    || existsb (Database.on_isbn b) community)%bool)
      by reflexivity.
    rewrite Hr. clear Hr.
    pose proof (matches_unique community b Hn) as Hm.
    destruct (filter (Database.on_isbn b) community) as [|c [|c' l]] eqn:Hf;
      simpl in Hm; try lia.
    - apply existsb_filter_nil in Hf. rewrite Hf, orb_false_r.
      unfold Database.where_clause. simpl.
      destruct (is_uk_publisher b); reflexivity.
    - assert (Hc : In c (filter (Database.on_isbn b) community))
        by (rewrite Hf; now left).
      apply filter_In in Hc. destruct Hc as [Hin Hon].
      assert (He : existsb (Database.on_isbn b) community = true)
        by (apply existsb_exists; now exists c).
      rewrite He, orb_true_r.
      apply on_isbn_true in Hon. destruct Hon as (k & _ & Hk).
      unfold Database.where_clause. simpl. rewrite Hk. simpl.
      destruct (is_uk_publisher b); reflexivity. }
  split; [exact Hlen|]. rewrite Hlen. apply filter_length_le.
Qed.

Lemma join_one_row_per_book_witness :
  let books := [sample_book false (Some 4%Q) (Some 120%Z);
                sample_book true (Some 3%Q) (Some 7%Z)] in
  let community := [sample_aggregate 4.5%Q] in
  NoDup (filter_map c_isbn community)
  /\ List.length (Database.sql_query books community) = 2
  /\ List.length (Database.sql_query books community) <= List.length books.
Proof.
  intros books community.
  assert (Hn : NoDup (filter_map c_isbn community)).
  { simpl. constructor; [intros []|constructor]. }
  split; [exact Hn|].
  destruct (join_one_row_per_book books community Hn) as [Hlen Hle].
  split; [rewrite Hlen; reflexivity | exact Hle].
Defined.

(** X19. The join is on the identifier, not on the key: a catalog row
    without an identifier (one with a fallback key) is never joined to an
    aggregate, so it appears in the output only if it is flagged, with a
    null community rating and rating gap and the category Average. *)
Theorem fallback_rows_never_rated
  (books : list Book) (community : list CommunityRating) (b : Book)
  (c : option CommunityRating) :
  isbn b = None ->
  In (Database.select b c) (Database.sql_query books community) ->
  is_uk_publisher b = true
  /\ Database.Master.bc_rating (Database.select b c) = None
  /\ Database.Master.rating_gap (Database.select b c) = None
  /\ Database.Master.book_category (Database.select b c) = lit "Average".
Proof.
  intros Hisbn Hrow. apply sql_query_In in Hrow.
  destruct Hrow as (b' & c' & Hin & Hw & Heq).
  pose proof (select_book _ _ _ _ Heq) as Hb. subst b'.
  assert (Hc' : c' = None).
  { destruct c' as [r|]; [|reflexivity]. apply left_join_In in Hin.
    destruct Hin as (_ & _ & Hon). apply on_isbn_true in Hon.
    destruct Hon as (k & Hk & _). congruence. }
  subst c'. rewrite Heq. split.
  - apply where_clause_true in Hw.
    destruct Hw as [Hflag | (r & Hr & _)]; [exact Hflag | discriminate].
  - simpl. split; [reflexivity|]. split; [reflexivity|].
    apply book_category_null.
Qed.

Lemma fallback_rows_never_rated_witness :
  let b := {| book_key := Some (lit "COMP_EMMA_AUSTEN");
              isbn := None;
              title := Some (lit "Emma");
              authors := Some (lit "Austen, Jane");
              goodreads_rating := Some 4%Q;
              goodreads_review_count := Some 100%Z;
              page_count := None;
              publisher := Some (lit "PENGUIN");
              is_uk_publisher := true |} in
  isbn b = None
  /\ In (Database.select b None)
        (Database.sql_query [b] [sample_aggregate 4.5%Q])
  /\ Database.Master.book_category (Database.select b None) = lit "Average".
Proof.
  intros b.
  assert (Hin : In (Database.select b None)
                   (Database.sql_query [b] [sample_aggregate 4.5%Q]))
    by (left; reflexivity).
  split; [reflexivity|]. split; [exact Hin|].
  apply (fallback_rows_never_rated [b] [sample_aggregate 4.5%Q] b None
           eq_refl Hin).
Defined.

(** ** The join stage and the runner *)

(** X20. Running the join stage again on the world it leaves changes
    nothing: it ends with the same status and leaves the same files and
    tables. *)
Theorem script_04_idempotent (w : Database.World) :
  Database.script_04 (snd (Database.script_04 w)) = Database.script_04 w.
Proof.
  unfold Database.script_04.
  destruct (Database.goodreads_cleaned_csv w) as [g|] eqn:Hg; simpl.
  - destruct (Database.bc_ratings_aggregated_csv w) as [t|]; simpl;
      [destruct (Nat.ltb 0 (List.length t)); reflexivity | reflexivity].
  - now rewrite Hg.
Qed.

(** X21. Aggregates of an earlier run are used again: after a run with
    an aggregate file of at least one row, a further run in which that
    file is missing or has no rows leaves the [community_ratings] table as
    it is and writes the same master dataset as the earlier run, not one
    without community ratings. *)
Theorem stale_aggregates_used_again
  (w : Database.World) (goodreads : list Book)
  (c : CommunityRating) (t : list CommunityRating)
  (file : option (list CommunityRating)) :
  Database.goodreads_cleaned_csv w = Some goodreads ->
  Database.bc_ratings_aggregated_csv w = Some (c :: t) ->
  file = None \/ file = Some [] ->
  let w1 := snd (Database.script_04 w) in
  let w2 := snd (Database.script_04 (set_aggregates file w1)) in
  Database.master_dataset_csv w1
  = Some (Database.sql_query goodreads (c :: t))
  /\ Database.community_ratings_table w2 = c :: t
  /\ Database.master_dataset_csv w2 = Database.master_dataset_csv w1.
Proof.
  intros Hg Hbc Hfile w1 w2. unfold w2, w1, Database.script_04.
  rewrite Hg, Hbc. simpl.
  destruct Hfile as [-> | ->]; simpl; repeat split; reflexivity.
Qed.

Lemma stale_aggregates_used_again_witness :
  let b := sample_book false (Some 4%Q) (Some 120%Z) in
  let c := sample_aggregate 4.5%Q in
  let w :=
    {| Database.goodreads_cleaned_csv := Some [b];
       Database.bc_ratings_aggregated_csv := Some [c];
       Database.books_table := [];
       Database.community_ratings_table := [];
       Database.master_dataset_csv := None;
       Database.executive_summary_total_books := None |} in
  let w1 := snd (Database.script_04 w) in
  let w2 := snd (Database.script_04 (set_aggregates None w1)) in
  Database.goodreads_cleaned_csv w = Some [b]
  /\ Database.bc_ratings_aggregated_csv w = Some [c]
  /\ Database.master_dataset_csv w2
     = Some [Database.select b (Some c)].
Proof.
  intros b c w w1 w2. split; [reflexivity|]. split; [reflexivity|].
  destruct (stale_aggregates_used_again w [b] c [] None eq_refl eq_refl
              (or_introl eq_refl)) as (H1 & _ & H2).
  unfold w2, w1. rewrite H2, H1. reflexivity.
Defined.

Section RunnerFacts.
Import Database.

Lemma main_count (scripts : list Script) (n : nat) (w : World) :
  n <= fst (RunAll.main scripts n w) <= n + List.length scripts.
Proof.
  revert n w. induction scripts as [|s rest IH]; intros n w; simpl.
  - lia.
  - destruct (s w) as [ok w']. destruct ok; simpl; [|lia].
    specialize (IH (S n) w'). lia.
Qed.

Lemma main_app (pre rest : list Script) (n : nat) (w : World) :
  RunAll.main (pre ++ rest) n w
  = if Nat.eqb (fst (RunAll.main pre n w)) (n + List.length pre)
    then RunAll.main rest (n + List.length pre) (snd (RunAll.main pre n w))
    else RunAll.main pre n w.
Proof.
  revert n w. induction pre as [|s pre IH]; intros n w; simpl.
  - rewrite Nat.add_0_r, Nat.eqb_refl. reflexivity.
  - destruct (s w) as [ok w']. destruct ok; simpl.
    + rewrite IH. now rewrite <- !Nat.add_succ_comm.
    + destruct (Nat.eqb_spec n (n + S (List.length pre))); [lia|reflexivity].
Qed.

End RunnerFacts.

(** X22. The runner stops at the first script that fails: when the scripts
    before it all succeed, the count of successes is their number and the
    world is the one the failing script leaves, whatever scripts come
    after it; and the count never exceeds the number of scripts. *)
Theorem runner_stops_at_first_failure
  (pre : list Database.Script) (s : Database.Script)
  (rest : list Database.Script) (n : nat) (w : Database.World) :
  fst (RunAll.main pre n w) = n + List.length pre ->
  fst (s (snd (RunAll.main pre n w))) = false ->
  RunAll.main (pre ++ s :: rest) n w
  = (n + List.length pre, snd (s (snd (RunAll.main pre n w))))
  /\ fst (RunAll.main (pre ++ s :: rest) n w)
     < n + List.length (pre ++ s :: rest).
Proof.
  intros Hpre Hs.
  assert (Hm : RunAll.main (pre ++ s :: rest) n w
               = (n + List.length pre, snd (s (snd (RunAll.main pre n w))))).
  { rewrite main_app, Hpre, Nat.eqb_refl. now apply main_stops. }
  split; [exact Hm|]. rewrite Hm, length_app. simpl. lia.
Qed.

Lemma runner_stops_at_first_failure_witness :
  let w := world_without_aggregates in
  let w' := snd (Database.script_04 w) in
  let lost : Database.Script := fun x => (false, x) in
  fst (RunAll.main [Database.script_04] 0 w) = 0 + 1
  /\ fst (lost (snd (RunAll.main [Database.script_04] 0 w))) = false
  /\ RunAll.main ([Database.script_04] ++ lost :: [Database.script_05]) 0 w
     = (1, w').
Proof.
  intros w w' lost. split; [reflexivity|]. split; [reflexivity|].
  apply (proj1 (runner_stops_at_first_failure [Database.script_04] lost
                  [Database.script_05] 0 w eq_refl eq_refl)).
Defined.

(** ** The hidden gems report *)

(** X23. The hidden gems report holds exactly the rows of the join with
    the category Hidden Gem whose community rating rests on at least 20
    ratings. *)
Theorem hidden_gems_are_category_rows
  (books : list Book) (community : list CommunityRating)
  (row : Database.Master.Row) :
  In row (Analysis.hidden_gems (Database.sql_query books community))
  <-> In row (Database.sql_query books community)
      /\ Database.Master.book_category row = lit "Hidden Gem"
      /\ exists n, Database.Master.bc_rating_count row = Some n
                   /\ (20 <= n)%Z.
Proof.
  unfold Analysis.hidden_gems. rewrite isort_In, filter_In.
  split; intros [Hrow H]; (split; [exact Hrow|]);
    apply sql_query_In in Hrow; destruct Hrow as (b & c & _ & _ & ->);
    unfold Analysis.hidden_gems_mask, Goodreads.ge_const in *; simpl in *.
  - apply andb_true_iff in H. destruct H as [H H20].
    apply andb_true_iff in H. destruct H as [H4 H500].
    split.
    + apply book_category_hidden_gem.
      destruct (Database.c_col bc_rating_normalized c) as [m|];
        [|discriminate].
      destruct (goodreads_review_count b) as [n|]; [|discriminate].
      now exists m, n.
    + destruct (Database.c_col bc_rating_count c) as [n|]; [|discriminate].
      exists n. split; [reflexivity|]. now apply Z.leb_le.
  - destruct H as [Hcat (n & Hn & H20)].
    apply book_category_hidden_gem in Hcat.
    destruct Hcat as (m & k & -> & -> & H4 & H500).
    rewrite Hn, H4, H500. simpl. now apply Z.leb_le.
Qed.

(** ** From the cleaned catalog to the scores *)

Section ScoreBounds.
Local Open Scope R_scope.

Lemma log10_nonneg (n : Z) : (0 <= n)%Z -> 0 <= ln (IZR (n + 1)) / ln 10.
Proof.
  intros Hn. pose proof ln_10_gt_1 as H10.
  assert (H1 : 1 <= IZR (n + 1)) by (apply IZR_le; lia).
  assert (Hln : 0 <= ln (IZR (n + 1))).
  { destruct H1 as [Hlt | <-]; [|rewrite ln_1; lra].
    rewrite <- ln_1. left. apply ln_increasing; lra. }
  apply Rmult_le_pos; [exact Hln|]. left. apply Rinv_0_lt_compat. lra.
Qed.

End ScoreBounds.

(** X24. When the catalog of the join is the one the cleaner produces,
    every row of the join has a catalog rating between 0 and 5 and a
    review count; its engagement score is null only if the review count
    plus one is not positive, and with a review count of 0 or more the
    score lies between 0 and 5 times the logarithm. *)
Theorem scores_of_cleaned_catalog
  (P : NumericParser) (rows : list Goodreads.Raw.Row)
  (community : list CommunityRating) (row : Database.Master.Row) :
  In row (Database.sql_query (Goodreads.goodreads_final rows) community) ->
  exists q n,
    Database.Master.goodreads_rating row = Some q
    /\ (0 <= q)%Q /\ (q <= 5)%Q
    /\ Database.Master.goodreads_review_count row = Some n
    /\ (Database.Master.engagement_score row = None <-> (n + 1 <= 0)%Z)
    /\ ((0 <= n)%Z ->
        exists e, Database.Master.engagement_score row = Some e
                  /\ (0 <= e <= 5 * (ln (IZR (n + 1)) / ln 10))%R).
Proof.
  intros Hrow. apply sql_query_In in Hrow.
  destruct Hrow as (b & c & Hin & _ & ->).
  apply left_join_In in Hin. destruct Hin as [Hb _].
  apply goodreads_final_In in Hb. destruct Hb as (raw & Hraw & ->).
  unfold Goodreads.goodreads_clean in Hraw. apply filter_In in Hraw.
  destruct Hraw as [_ Hmask]. apply rating_mask_true in Hmask.
  destruct Hmask as (q & Hq & H0 & H5).
  exists q, (Goodreads.review_count_of raw).
  set (b := Goodreads.finish raw).
  assert (Hr : goodreads_rating b = Some q) by exact Hq.
  assert (Hn : goodreads_review_count b
               = Some (Goodreads.review_count_of raw)) by reflexivity.
  destruct (engagement_score_cases b) as (_ & Hval & Hnull).
  split; [exact Hr|]. split; [exact H0|]. split; [exact H5|].
  split; [exact Hn|]. split.
  - change (Database.Master.engagement_score (Database.select b c))
      with (Database.engagement_score b).
    rewrite Hnull. split.
    + intros [Hf | [Hf | (n & Hn' & Hle)]]; try congruence.
    + intros Hle. right. right. now exists (Goodreads.review_count_of raw).
  - intros Hpos.
    exists (Q2R q * (ln (IZR (Goodreads.review_count_of raw + 1)) / ln 10))%R.
    split; [apply (Hval q _ Hr Hn); lia|].
    pose proof (log10_nonneg _ Hpos) as Hlog.
    assert (Hq0 : (0 <= Q2R q)%R).
    { apply Qle_Rle in H0. unfold Q2R in H0 at 1. simpl in H0. lra. }
    assert (Hq5 : (Q2R q <= 5)%R).
    { apply Qle_Rle in H5. unfold Q2R in H5 at 2. simpl in H5. lra. }
    split; [now apply Rmult_le_pos|]. now apply Rmult_le_compat_r.
Qed.

Lemma scores_of_cleaned_catalog_witness :
  let rows := [rated_row (CStr (lit "4.47"))] in
  let row := Database.select
               (@Goodreads.finish Decimal.parser
                  (rated_row (CStr (lit "4.47"))))
               (Some (sample_aggregate 4.5%Q)) in
  In row (Database.sql_query (@Goodreads.goodreads_final Decimal.parser rows)
            [sample_aggregate 4.5%Q])
  /\ exists q n,
       Database.Master.goodreads_rating row = Some q
       /\ (0 <= q)%Q /\ (q <= 5)%Q
       /\ Database.Master.goodreads_review_count row = Some n
       /\ (Database.Master.engagement_score row = None <-> (n + 1 <= 0)%Z)
       /\ ((0 <= n)%Z ->
           exists e, Database.Master.engagement_score row = Some e
                     /\ (0 <= e <= 5 * (ln (IZR (n + 1)) / ln 10))%R).
Proof.
  intros rows row.
  assert (Hin : In row (Database.sql_query
                          (@Goodreads.goodreads_final Decimal.parser rows)
                          [sample_aggregate 4.5%Q]))
    by (left; reflexivity).
  split; [exact Hin|].
  apply (scores_of_cleaned_catalog Decimal.parser rows
           [sample_aggregate 4.5%Q] row Hin).
Defined.

(** ** Countries *)

Section CountryFacts.

Lemma split_first_app (x y : str) :
  ~ In comma x -> split_first (x ++ comma :: y) = x.
Proof.
  induction x as [|c x IH]; simpl; intros Hn.
  - reflexivity.
  - destruct (Ascii.eqb_spec c comma) as [-> | _]; [tauto|].
    f_equal. apply IH. tauto.
Qed.

Lemma split_first_no_comma (x : str) : ~ In comma x -> split_first x = x.
Proof.
  induction x as [|c x IH]; simpl; intros Hn; [reflexivity|].
  destruct (Ascii.eqb_spec c comma) as [-> | _]; [tauto|].
  f_equal. apply IH. tauto.
Qed.

Lemma split_last_app (a b : str) :
  ~ In comma b -> split_last (a ++ comma :: b) = b.
Proof.
  intros Hn. unfold split_last.
  rewrite rev_app_distr. simpl. rewrite <- app_assoc. simpl.
  rewrite split_first_app; [apply rev_involutive|].
  intros Hin. apply Hn. now apply in_rev.
Qed.

Lemma split_last_no_comma (b : str) : ~ In comma b -> split_last b = b.
Proof.
  intros Hn. unfold split_last.
  rewrite split_first_no_comma; [apply rev_involutive|].
  intros Hin. apply Hn. now apply in_rev.
Qed.

End CountryFacts.

(** X25. The country of a user is the text after the last comma of the
    location, trimmed and in upper case, and the whole location when it
    has no comma; what stands before the last comma has no influence on
    the country or on the UK flag.  A user without a location has the
    country "Unknown" and is not flagged. *)
Theorem country_is_last_segment
  (P : NumericParser) (u : BookCrossing.Users.Row) :
  (forall a b,
      BookCrossing.Users.Location u = Some (a ++ comma :: b) ->
      ~ In comma b ->
      BookCrossing.cu_country (BookCrossing.clean_user u) = upper (strip b)
      /\ BookCrossing.cu_is_uk (BookCrossing.clean_user u)
         = existsb (str_eqb (upper (strip b))) BookCrossing.uk_countries)
  /\ (forall b,
        BookCrossing.Users.Location u = Some b ->
        ~ In comma b ->
        BookCrossing.cu_country (BookCrossing.clean_user u) = upper (strip b))
  /\ (BookCrossing.Users.Location u = None ->
      BookCrossing.cu_country (BookCrossing.clean_user u) = lit "Unknown"
      /\ BookCrossing.cu_is_uk (BookCrossing.clean_user u) = false).
Proof.
  unfold BookCrossing.clean_user. simpl. split; [|split].
  - intros a b -> Hn. now rewrite (split_last_app a b Hn).
  - intros b -> Hn. now rewrite (split_last_no_comma b Hn).
  - intros ->. split; reflexivity.
Qed.

Lemma country_is_last_segment_witness :
  let u := {| BookCrossing.Users.User_ID := 8%Z;
              BookCrossing.Users.Location :=
                Some (lit "leeds, yorkshire" ++ comma :: lit " England ");
              BookCrossing.Users.Age := CNaN |} in
  BookCrossing.Users.Location u
  = Some (lit "leeds, yorkshire" ++ comma :: lit " England ")
  /\ ~ In comma (lit " England ")
  /\ BookCrossing.cu_country (@BookCrossing.clean_user Decimal.parser u)
     = lit "ENGLAND"
  /\ BookCrossing.cu_is_uk (@BookCrossing.clean_user Decimal.parser u) = true.
Proof.
  intros u.
  assert (Hn : ~ In comma (lit " England ")).
  { simpl. intros H.
    repeat (destruct H as [H | H]; [discriminate H|]). exact H. }
  split; [reflexivity|]. split; [exact Hn|].
  destruct (proj1 (country_is_last_segment Decimal.parser u)
              (lit "leeds, yorkshire") (lit " England ") eq_refl Hn)
    as [Hc Hk].
  split; [rewrite Hc; reflexivity | rewrite Hk; reflexivity].
Defined.
